(** * Invoicing service: the invoice routes over a relational store

    A shallow embedding of [app/routes/invoices.py] (the four routes and
    [calculate_invoice_totals]), of the schema, seed data and the two
    functions of [migrations/002_create_invoicing_tables.py], and of the
    smoke test [verify_invoices.py].

    - Python [float] is IEEE binary64: Rocq's primitive floats.
    - Python [int] is [Z]. Converting an int to a float and binding an int
      to a statement raise [OverflowError] outside their ranges.
    - A table is a finite map from rowid (INTEGER PRIMARY KEY, a 64-bit
      integer) to row, with the AUTOINCREMENT counter that SQLite keeps in
      [sqlite_sequence]. A REAL NOT NULL column stores no NaN and stores a
      negative zero as 0.0.
    - A route is a function from the store to a result and a store; an
      exception is a value of [Py.exn]. *)

From Stdlib Require Import PrimFloat SpecFloat FloatOps ZArith.
From stdpp Require Import gmap strings list fin_maps pretty sorting.

Local Open Scope Z_scope.

(** ** Python values, exceptions and the float arithmetic of the pricing code *)
Module Py.

(** Exceptions other than [HTTPException] that the routes can meet. *)
Inductive error :=
| IntegrityError (msg : string)
| NameError (name : string)
| OverflowError (msg : string).

Inductive exn :=
| HTTPException (status_code : Z) (detail : string)
| Error (e : error).

(** [str(e)] for the built-in errors. *)
Definition str (e : error) : string :=
  match e with
  | IntegrityError msg => msg
  | NameError name => "name '" +:+ name +:+ "' is not defined"
  | OverflowError msg => msg
  end.

Inductive result (A : Type) :=
| Ok (a : A)
| Raise (e : exn).
Arguments Ok {A} a.
Arguments Raise {A} e.

#[global] Instance result_ret : MRet result := λ A a, Ok a.
#[global] Instance result_bind : MBind result := λ A B f r,
  match r with
  | Ok a => f a
  | Raise e => Raise e
  end.

(** [float(n)] for an [int]: round to nearest, ties to even; an int whose
    rounding exceeds the largest float raises [OverflowError]. *)
Definition float_of_int (n : Z) : result float :=
  let x := SF2Prim (binary_normalize 53 1024 n 0 false) in
  if is_infinity x
  then Raise (Error (OverflowError "int too large to convert to float"))
  else Ok x.

(** [x * n] with [x] a float and [n] an int: the int is converted first. *)
Definition mul_int (x : float) (n : Z) : result float :=
  y ← float_of_int n; Ok (PrimFloat.mul x y).

End Py.
Export Py.

(** ** The schema of migration 002 *)
Module Schema.

Record date := Date { year : Z; month : Z; day : Z }.

Module Clients.
Record row := Row { name : string; address : string; company_reg_no : string }.
End Clients.

Module Products.
Record row := Row { name : string; price : float }.
End Products.

Module Invoices.
Record row := Row {
  invoice_no : string;
  issue_date : date;
  due_date : date;
  client_id : Z;
  tax_amount : float;
  total_amount : float }.
End Invoices.

Module InvoiceItems.
Record row := Row {
  invoice_id : Z;
  product_id : Z;
  quantity : Z;
  unit_price : float;
  line_total : float }.
End InvoiceItems.

(** A table with [id INTEGER PRIMARY KEY AUTOINCREMENT]: its rows by rowid,
    and the largest rowid it has ever handed out (0 when none). *)
Record table (A : Type) := Table { rows : gmap Z A; sqlite_sequence : Z }.
Arguments Table {A} rows sqlite_sequence.
Arguments rows {A} t.
Arguments sqlite_sequence {A} t.

Definition empty_table {A} : table A := Table ∅ 0.

Definition max_rowid {A} (m : gmap Z A) : Z :=
  map_fold (λ k _ acc, Z.max k acc) 0 m.

(** The rowid AUTOINCREMENT picks: one more than the largest rowid that is
    or ever was in the table. *)
Definition next_rowid {A} (t : table A) : Z :=
  Z.max (sqlite_sequence t) (max_rowid (rows t)) + 1.

(** [INSERT INTO t (...) VALUES (...)] without an explicit id; the rowid is
    what [cursor.lastrowid] reads afterwards. *)
Definition insert_row {A} (r : A) (t : table A) : Z * table A :=
  let rowid := next_rowid t in
  (rowid, Table (<[rowid := r]> (rows t)) rowid).

(** [DELETE FROM t WHERE id = ?]. *)
Definition delete_row {A} (rowid : Z) (t : table A) : table A :=
  Table (delete rowid (rows t)) (sqlite_sequence t).

(** [DELETE FROM t WHERE P]. *)
Definition delete_where {A} (P : A → Prop) `{!∀ r, Decision (P r)}
    (t : table A) : table A :=
  Table (filter (λ kr, ¬ P kr.2) (rows t)) (sqlite_sequence t).

(** The rowids of a table in ascending order: the order of a table scan. *)
Definition rowids {A} (t : table A) : list Z :=
  merge_sort Z.le (map_to_list (rows t)).*1.

(** [SELECT id, * FROM t] by a table scan. *)
Definition scan {A} (t : table A) : list (Z * A) :=
  omap (λ k, (k,.) <$> rows t !! k) (rowids t).

Record db := Db {
  clients : table Clients.row;
  products : table Products.row;
  invoices : table Invoices.row;
  invoice_items : table InvoiceItems.row }.

Definition with_products (t : table Products.row) (conn : db) : db :=
  Db (clients conn) t (invoices conn) (invoice_items conn).
Definition with_invoices (t : table Invoices.row) (conn : db) : db :=
  Db (clients conn) (products conn) t (invoice_items conn).
Definition with_invoice_items (t : table InvoiceItems.row) (conn : db) : db :=
  Db (clients conn) (products conn) (invoices conn) t.

(** [invoice_no TEXT NOT NULL UNIQUE]: is the number already in the table? *)
Definition invoice_no_taken (no : string) (t : table Invoices.row) : bool :=
  bool_decide (map_Exists (λ _ r, Invoices.invoice_no r = no) (rows t)).

(** [upgrade()]: the four empty tables, then the seed clients and products,
    inserted in the order of the seed lists. *)
Definition seed_clients : list Clients.row :=
  [ Clients.Row "Acme Corp" "123 Business Rd, Tech City" "REG123456";
    Clients.Row "Globex Inc" "456 Global Way, World Town" "REG654321";
    Clients.Row "Soylent Corp" "789 Green St, Eco City" "REG987654" ].

(** 25.50 is [0x1.98p+4] and 99.99 rounds to [0x1.8ff5c28f5c28fp+6]. *)
Definition seed_products : list Products.row :=
  [ Products.Row "Widget A" 10%float;
    Products.Row "Widget B" 0x1.98p+4%float;
    Products.Row "Gadget X" 50%float;
    Products.Row "Gadget Y" 0x1.8ff5c28f5c28fp+6%float;
    Products.Row "Service Hour" 150%float ].

Definition executemany {A} (rs : list A) (t : table A) : table A :=
  foldl (λ t r, (insert_row r t).2) t rs.

Definition upgrade : db :=
  Db (executemany seed_clients empty_table)
     (executemany seed_products empty_table)
     empty_table
     empty_table.


(** *** Binding Python values to a statement *)

(** The integers that fit an SQLite INTEGER. *)
Definition in_int64 (n : Z) : Prop := - 2 ^ 63 ≤ n < 2 ^ 63.

#[global] Instance in_int64_dec n : Decision (in_int64 n).
Proof. unfold in_int64. apply _. Defined.

(** Binding an [int] outside 64 bits raises [OverflowError]. *)
Definition bind_int (n : Z) : result unit :=
  if decide (in_int64 n) then Ok ()
  else Raise (Error (OverflowError "Python int too large to convert to SQLite INTEGER")).

(** Binding an [int] that is compared with, or stored as a reference to,
    the rowid of table [t]. The rowids of a table are 64-bit integers, so an
    id that has a row in [t] binds. *)
Definition bind_rowid {A} (id : Z) (t : table A) : result unit :=
  match rows t !! id with
  | Some _ => Ok ()
  | None => bind_int id
  end.

(** Binding a [float] to a REAL column: NaN is bound as NULL, and a zero of
    either sign is stored as the integer 0 and read back as 0.0. *)
Definition sqlite_real (x : float) : option float :=
  if is_nan x then None
  else if is_zero x then Some 0%float
  else Some x.

(** A REAL NOT NULL column: NULL violates the constraint. *)
Definition real_not_null (column : string) (x : float) : result float :=
  match sqlite_real x with
  | Some y => Ok y
  | None => Raise (Error (IntegrityError ("NOT NULL constraint failed: " +:+ column)))
  end.

End Schema.
Export Schema.

(** ** [app/routes/invoices.py] *)
Module Routes.

(** *** Pydantic models *)
Module InvoiceItemCreate.
Record t := Make { product_id : Z; quantity : Z }.
End InvoiceItemCreate.

Module InvoiceCreate.
Record t := Make {
  client_id : Z;
  invoice_no : string;
  issue_date : date;
  due_date : date;
  items : list InvoiceItemCreate.t }.
End InvoiceCreate.

Module InvoiceItemResponse.
Record t := Make {
  id : Z;
  product_name : string;
  quantity : Z;
  unit_price : float;
  line_total : float }.
End InvoiceItemResponse.

Module InvoiceResponse.
Record t := Make {
  id : Z;
  invoice_no : string;
  issue_date : date;
  due_date : date;
  client_name : string;
  tax_amount : float;
  total_amount : float;
  items : list InvoiceItemResponse.t }.
End InvoiceResponse.

Module InvoiceListResponse.
Record t := Make {
  id : Z;
  invoice_no : string;
  issue_date : date;
  due_date : date;
  client_name : string;
  total_amount : float }.
End InvoiceListResponse.

(** The dict that [calculate_invoice_totals] appends to [processed_items]. *)
Module ProcessedItem.
Record t := Make {
  product_id : Z;
  product_name : string;
  unit_price : float;
  quantity : Z;
  line_total : float }.
End ProcessedItem.

(** *** The module's environment *)

(** The names bound at module level: the imports of lines 1-5, [router],
    the models and the functions. [sqlite3] is not imported. *)
Definition module_globals : list string :=
  [ "APIRouter"; "HTTPException"; "status"; "BaseModel"; "List"; "Optional";
    "date"; "get_db"; "router";
    "InvoiceItemCreate"; "InvoiceCreate"; "InvoiceItemResponse";
    "InvoiceResponse"; "InvoiceListResponse";
    "calculate_invoice_totals"; "create_invoice"; "list_invoices";
    "get_invoice"; "delete_invoice" ].

(** Reading a global name that is neither bound in the module nor a
    built-in raises [NameError]. *)
Definition load_global (name : string) : result unit :=
  if bool_decide (name ∈ module_globals) then Ok ()
  else Raise (Error (NameError name)).

(** *** The block of a route *)

(** The body of a [with get_db() as conn] block: a function from the store
    at entry to its outcome and the store with the writes made so far; when
    the body raises, the store is the one at the raise. *)
Definition block (A : Type) : Type := db → result A * db.

#[global] Instance block_ret : MRet block := λ A a conn, (Ok a, conn).
#[global] Instance block_bind : MBind block := λ A B f m conn,
  match m conn with
  | (Ok a, conn) => f a conn
  | (Raise e, conn) => (Raise e, conn)
  end.

Definition raise {A} (e : exn) : block A := λ conn, (Raise e, conn).

(** A statement that reads. *)
Definition read {A} (query : db → result A) : block A :=
  λ conn, (query conn, conn).

(** A statement that writes: when it raises it has written nothing. *)
Definition write {A} (statement : db → result (A * db)) : block A :=
  λ conn,
    match statement conn with
    | Ok (a, conn') => (Ok a, conn')
    | Raise e => (Raise e, conn)
    end.

(** Modelled from the spec: [app.database.get_db], the context manager the
    routes open with [with get_db() as conn]; its file is not part of the
    sources. It yields a connection whose rows read by column name, commits
    when the block ends normally and rolls back when the block raises (the
    comment at line 95 and the spec's "transaction rollback"). *)
Definition get_db {A} (body : block A) (st : db) : result A * db :=
  match body st with
  | (Ok a, st') => (Ok a, st')
  | (Raise e, _) => (Raise e, st)
  end.

(** [except HTTPException: raise] followed by
    [except Exception as e: raise HTTPException(500, f"Database error: {str(e)}")]. *)
Definition database_error {A} (r : result A * db) : result A * db :=
  match r.1 with
  | Ok a => r
  | Raise (HTTPException _ _) => r
  | Raise (Error e) =>
      (Raise (HTTPException 500 ("Database error: " +:+ str e)), r.2)
  end.

(** *** Statements *)

(** [SELECT id, name FROM clients WHERE id = ?], [fetchone()]. *)
Definition select_client (client_id : Z) (conn : db)
  : result (option (Z * Clients.row)) :=
  _ ← bind_rowid client_id (clients conn);
  Ok ((client_id,.) <$> rows (clients conn) !! client_id).

(** [SELECT id, name, price FROM products WHERE id = ?], [fetchone()]. *)
Definition select_product (product_id : Z) (conn : db)
  : result (option (Z * Products.row)) :=
  _ ← bind_rowid product_id (products conn);
  Ok ((product_id,.) <$> rows (products conn) !! product_id).

(** [INSERT INTO invoices (...)] with the values of [r] bound: the NOT NULL
    constraints of the two REAL columns and then the UNIQUE constraint on
    [invoice_no] raise [sqlite3.IntegrityError]; otherwise the row is added
    as SQLite stores it and [cursor.lastrowid] is its rowid. *)
Definition insert_invoice (r : Invoices.row) (conn : db) : result (Z * db) :=
  _ ← bind_rowid (Invoices.client_id r) (clients conn);
  tax_amount ← real_not_null "invoices.tax_amount" (Invoices.tax_amount r);
  total_amount ← real_not_null "invoices.total_amount" (Invoices.total_amount r);
  if invoice_no_taken (Invoices.invoice_no r) (invoices conn)
  then Raise (Error (IntegrityError "UNIQUE constraint failed: invoices.invoice_no"))
  else let '(rowid, t) :=
         insert_row
           (Invoices.Row (Invoices.invoice_no r) (Invoices.issue_date r)
              (Invoices.due_date r) (Invoices.client_id r) tax_amount total_amount)
           (invoices conn) in
       Ok (rowid, with_invoices t conn).

(** [INSERT INTO invoice_items (...)] with the values of [r] bound. *)
Definition insert_invoice_item (r : InvoiceItems.row) (conn : db) : result (unit * db) :=
  _ ← bind_rowid (InvoiceItems.invoice_id r) (invoices conn);
  _ ← bind_rowid (InvoiceItems.product_id r) (products conn);
  _ ← bind_int (InvoiceItems.quantity r);
  unit_price ← real_not_null "invoice_items.unit_price" (InvoiceItems.unit_price r);
  line_total ← real_not_null "invoice_items.line_total" (InvoiceItems.line_total r);
  Ok ((),
      with_invoice_items
        (insert_row
           (InvoiceItems.Row (InvoiceItems.invoice_id r) (InvoiceItems.product_id r)
              (InvoiceItems.quantity r) unit_price line_total)
           (invoice_items conn)).2
        conn).

(** *** Helper functions *)

(** The [for item in items] loop of [calculate_invoice_totals], with its
    two accumulators. *)
Fixpoint calculate_invoice_totals_loop (items : list InvoiceItemCreate.t)
    (conn : db) (total_amount : float) (processed_items : list ProcessedItem.t)
  : result (float * list ProcessedItem.t) :=
  match items with
  | [] => Ok (total_amount, processed_items)
  | item :: items =>
    product ← select_product (InvoiceItemCreate.product_id item) conn;
    match product with
    | None =>
        Raise (HTTPException 404
                 ("Product with ID " +:+ pretty (InvoiceItemCreate.product_id item)
                    +:+ " not found"))
    | Some product =>
        line_total ←
          mul_int (Products.price product.2) (InvoiceItemCreate.quantity item);
        calculate_invoice_totals_loop items conn
          (total_amount + line_total)%float
          (processed_items ++
             [ ProcessedItem.Make product.1 (Products.name product.2)
                 (Products.price product.2) (InvoiceItemCreate.quantity item)
                 line_total ])
    end
  end.

(** 0.10 as a binary64 value. *)
Definition tax_rate : float := 0x1.999999999999ap-4%float.

Definition calculate_invoice_totals (items : list InvoiceItemCreate.t) (conn : db)
  : result (list ProcessedItem.t * float * float) :=
  '(total_amount, processed_items) ← calculate_invoice_totals_loop items conn 0%float [];
  let tax_amount := (total_amount * tax_rate)%float in
  let final_total := (total_amount + tax_amount)%float in
  Ok (processed_items, tax_amount, final_total).

(** *** Routes *)

(** [try: <insert> except sqlite3.IntegrityError: raise HTTPException(400, ...)].
    The clause evaluates the expression [sqlite3.IntegrityError] when, and
    only when, the body has raised. *)
Definition except_IntegrityError {A} (body : result A) : result A :=
  match body with
  | Ok a => Ok a
  | Raise e =>
      _ ← load_global "sqlite3";
      match e with
      | Error (IntegrityError _) =>
          Raise (HTTPException 400 "Invoice number already exists")
      | _ => Raise e
      end
  end.

Definition try_except_IntegrityError {A} (body : block A) : block A :=
  λ conn, let '(r, conn) := body conn in (except_IntegrityError r, conn).

Definition item_row (invoice_id : Z) (item : ProcessedItem.t) : InvoiceItems.row :=
  InvoiceItems.Row invoice_id (ProcessedItem.product_id item)
    (ProcessedItem.quantity item) (ProcessedItem.unit_price item)
    (ProcessedItem.line_total item).

Definition response_item (item : ProcessedItem.t) : InvoiceItemResponse.t :=
  InvoiceItemResponse.Make 0 (ProcessedItem.product_name item)
    (ProcessedItem.quantity item) (ProcessedItem.unit_price item)
    (ProcessedItem.line_total item).

(** The [for item in processed_items] loop of [create_invoice]. *)
Fixpoint insert_invoice_items (invoice_id : Z) (processed_items : list ProcessedItem.t)
  : block unit :=
  match processed_items with
  | [] => mret ()
  | item :: processed_items =>
      _ ← write (insert_invoice_item (item_row invoice_id item));
      insert_invoice_items invoice_id processed_items
  end.

(** The [with get_db() as conn] block of [create_invoice]. *)
Definition create_invoice_block (invoice : InvoiceCreate.t) : block InvoiceResponse.t :=
  client ← read (select_client (InvoiceCreate.client_id invoice));
  match client with
  | None => raise (HTTPException 404 "Client not found")
  | Some client =>
      '(processed_items, tax_amount, total_amount) ←
        read (calculate_invoice_totals (InvoiceCreate.items invoice));
      invoice_id ←
        try_except_IntegrityError
          (write
             (insert_invoice
                (Invoices.Row (InvoiceCreate.invoice_no invoice)
                   (InvoiceCreate.issue_date invoice) (InvoiceCreate.due_date invoice)
                   (InvoiceCreate.client_id invoice) tax_amount total_amount)));
      _ ← insert_invoice_items invoice_id processed_items;
      let response_items := response_item <$> processed_items in
      mret (InvoiceResponse.Make invoice_id (InvoiceCreate.invoice_no invoice)
              (InvoiceCreate.issue_date invoice) (InvoiceCreate.due_date invoice)
              (Clients.name client.2) tax_amount total_amount response_items)
  end.

Definition create_invoice (invoice : InvoiceCreate.t) (st : db)
  : result InvoiceResponse.t * db :=
  database_error (get_db (create_invoice_block invoice) st).

(** [SELECT i.id, ..., c.name as client_name FROM invoices i
     JOIN clients c ON i.client_id = c.id ORDER BY i.id DESC]. *)
Definition select_invoices (conn : db) : list (Z * Invoices.row * string) :=
  omap (λ i, (λ c, (i.1, i.2, Clients.name c))
               <$> rows (clients conn) !! Invoices.client_id i.2)
       (reverse (scan (invoices conn))).

Definition list_row (row : Z * Invoices.row * string) : InvoiceListResponse.t :=
  InvoiceListResponse.Make row.1.1 (Invoices.invoice_no row.1.2)
    (Invoices.issue_date row.1.2) (Invoices.due_date row.1.2)
    row.2 (Invoices.total_amount row.1.2).

(** The block of [list_invoices] binds nothing and raises nothing, so that
    its handler has no [except HTTPException: raise] makes no difference. *)
Definition list_invoices (st : db) : result (list InvoiceListResponse.t) * db :=
  database_error
    (get_db (read (λ conn, Ok (list_row <$> select_invoices conn))) st).

(** [SELECT i.id, ..., c.name as client_name FROM invoices i
     JOIN clients c ON i.client_id = c.id WHERE i.id = ?], [fetchone()]. *)
Definition select_invoice (invoice_id : Z) (conn : db)
  : result (option (Z * Invoices.row * string)) :=
  _ ← bind_rowid invoice_id (invoices conn);
  Ok (i ← rows (invoices conn) !! invoice_id;
      c ← rows (clients conn) !! Invoices.client_id i;
      Some (invoice_id, i, Clients.name c)).

(** [SELECT ii.id, p.name as product_name, ii.quantity, ii.unit_price,
     ii.line_total FROM invoice_items ii JOIN products p ON ii.product_id = p.id
     WHERE ii.invoice_id = ?], [fetchall()], for the id of an invoice that the
    query before it has found: no ORDER BY, the rows come in the order of the
    scan of [invoice_items]. *)
Definition select_invoice_items (invoice_id : Z) (conn : db)
  : list (Z * string * InvoiceItems.row) :=
  omap (λ ii, if decide (InvoiceItems.invoice_id ii.2 = invoice_id)
              then (λ p, (ii.1, Products.name p, ii.2))
                     <$> rows (products conn) !! InvoiceItems.product_id ii.2
              else None)
       (scan (invoice_items conn)).

Definition detail_item (item : Z * string * InvoiceItems.row) : InvoiceItemResponse.t :=
  InvoiceItemResponse.Make item.1.1 item.1.2 (InvoiceItems.quantity item.2)
    (InvoiceItems.unit_price item.2) (InvoiceItems.line_total item.2).

Definition get_invoice_block (invoice_id : Z) : block InvoiceResponse.t :=
  invoice ← read (select_invoice invoice_id);
  match invoice with
  | None => raise (HTTPException 404 "Invoice not found")
  | Some invoice =>
      items ← read (λ conn, Ok (select_invoice_items invoice_id conn));
      let response_items := detail_item <$> items in
      mret (InvoiceResponse.Make invoice.1.1 (Invoices.invoice_no invoice.1.2)
              (Invoices.issue_date invoice.1.2) (Invoices.due_date invoice.1.2)
              invoice.2 (Invoices.tax_amount invoice.1.2)
              (Invoices.total_amount invoice.1.2) response_items)
  end.

Definition get_invoice (invoice_id : Z) (st : db) : result InvoiceResponse.t * db :=
  database_error (get_db (get_invoice_block invoice_id) st).

Definition delete_invoice_block (invoice_id : Z) : block unit :=
  (* SELECT id FROM invoices WHERE id = ? *)
  found ← read (λ conn, _ ← bind_rowid invoice_id (invoices conn);
                        Ok (rows (invoices conn) !! invoice_id));
  match found with
  | None => raise (HTTPException 404 "Invoice not found")
  | Some _ =>
      (* DELETE FROM invoice_items WHERE invoice_id = ? *)
      _ ← write (λ conn,
             Ok ((), with_invoice_items
                       (delete_where (λ ii, InvoiceItems.invoice_id ii = invoice_id)
                          (invoice_items conn)) conn));
      (* DELETE FROM invoices WHERE id = ? *)
      write (λ conn, Ok ((), with_invoices (delete_row invoice_id (invoices conn)) conn))
  end.

Definition delete_invoice (invoice_id : Z) (st : db) : result unit * db :=
  database_error (get_db (delete_invoice_block invoice_id) st).

End Routes.
Export Routes.

(** ** What the properties speak of *)
Module Spec.

(** The FOREIGN KEY clauses of the migration, as predicates on a store. *)
Definition invoices_reference_clients (st : db) : Prop :=
  ∀ id i, rows (invoices st) !! id = Some i →
    is_Some (rows (clients st) !! Invoices.client_id i).

Definition items_reference_invoices (st : db) : Prop :=
  ∀ id ii, rows (invoice_items st) !! id = Some ii →
    is_Some (rows (invoices st) !! InvoiceItems.invoice_id ii).

(** Every line of a request names a product of the catalog. *)
Definition products_exist (items : list InvoiceItemCreate.t) (st : db) : Prop :=
  Forall (λ item, is_Some (rows (products st) !! InvoiceItemCreate.product_id item)) items.

(** The quantity of every line is within the range of a float. *)
Definition quantities_convert (items : list InvoiceItemCreate.t) : Prop :=
  Forall (λ item, ∃ y, float_of_int (InvoiceItemCreate.quantity item) = Ok y) items.

(** A request line priced from the catalog: the product's name and price,
    the line's quantity, and line_total = unit_price × quantity. *)
Definition priced (st : db) (item : InvoiceItemCreate.t) (p : ProcessedItem.t) : Prop :=
  ∃ product y,
    rows (products st) !! InvoiceItemCreate.product_id item = Some product
    ∧ float_of_int (InvoiceItemCreate.quantity item) = Ok y
    ∧ p = ProcessedItem.Make (InvoiceItemCreate.product_id item)
            (Products.name product) (Products.price product)
            (InvoiceItemCreate.quantity item)
            (Products.price product * y)%float.

(** How the pricing of one line fails: its product id has no row and is
    a 64-bit integer (the 404), or has no row and cannot be bound, or its
    product exists and its quantity is beyond the range of a float. *)
Definition line_fails (st : db) (item : InvoiceItemCreate.t) (e : exn) : Prop :=
  (rows (products st) !! InvoiceItemCreate.product_id item = None
   ∧ in_int64 (InvoiceItemCreate.product_id item)
   ∧ e = HTTPException 404
           ("Product with ID " +:+ pretty (InvoiceItemCreate.product_id item)
              +:+ " not found"))
  ∨ (rows (products st) !! InvoiceItemCreate.product_id item = None
     ∧ ¬ in_int64 (InvoiceItemCreate.product_id item)
     ∧ e = Error (OverflowError "Python int too large to convert to SQLite INTEGER"))
  ∨ (is_Some (rows (products st) !! InvoiceItemCreate.product_id item)
     ∧ float_of_int (InvoiceItemCreate.quantity item) = Raise e
     ∧ e = Error (OverflowError "int too large to convert to float")).


(** The sum of the line totals, added in line order from 0.0. *)
Definition subtotal (ps : list ProcessedItem.t) : float :=
  foldl PrimFloat.add 0%float (ProcessedItem.line_total <$> ps).

(** A priced line as the item row that SQLite stores for an invoice: the
    quantity is a 64-bit integer and the two amounts are not NaN. *)
Definition persisted (invoice_id : Z) (p : ProcessedItem.t) (row : InvoiceItems.row)
  : Prop :=
  in_int64 (ProcessedItem.quantity p)
  ∧ sqlite_real (ProcessedItem.unit_price p) = Some (InvoiceItems.unit_price row)
  ∧ sqlite_real (ProcessedItem.line_total p) = Some (InvoiceItems.line_total row)
  ∧ InvoiceItems.invoice_id row = invoice_id
  ∧ InvoiceItems.product_id row = ProcessedItem.product_id p
  ∧ InvoiceItems.quantity row = ProcessedItem.quantity p.


(** Changes to the catalog made outside the routes:
    [UPDATE products SET price = ? WHERE id = ?] and
    [DELETE FROM products WHERE id = ?]. *)
Definition update_price (product_id : Z) (price : float) (st : db) : db :=
  with_products
    (Table (alter (λ p, Products.Row (Products.name p) price) product_id
              (rows (products st)))
       (sqlite_sequence (products st))) st.

Definition delete_product (product_id : Z) (st : db) : db :=
  with_products (delete_row product_id (products st)) st.

(** The response and the store of a successful creation, from the client
    row, the priced lines [ps], and the amounts and item rows as stored. *)
Definition created_response (invoice : InvoiceCreate.t) (client : Clients.row)
    (ps : list ProcessedItem.t) (st : db) : InvoiceResponse.t :=
  InvoiceResponse.Make (next_rowid (invoices st)) (InvoiceCreate.invoice_no invoice)
    (InvoiceCreate.issue_date invoice) (InvoiceCreate.due_date invoice)
    (Clients.name client)
    (subtotal ps * tax_rate)%float (subtotal ps + subtotal ps * tax_rate)%float
    (response_item <$> ps).

Definition created_row (invoice : InvoiceCreate.t) (tax_amount total_amount : float)
  : Invoices.row :=
  Invoices.Row (InvoiceCreate.invoice_no invoice) (InvoiceCreate.issue_date invoice)
    (InvoiceCreate.due_date invoice) (InvoiceCreate.client_id invoice)
    tax_amount total_amount.

Definition created_store (invoice : InvoiceCreate.t) (tax_amount total_amount : float)
    (rs : list InvoiceItems.row) (st : db) : db :=
  Db (clients st) (products st)
     (insert_row (created_row invoice tax_amount total_amount) (invoices st)).2
     (executemany rs (invoice_items st)).


(** The same store with other tax amounts on the invoice rows. *)
Definition with_tax (tax : Invoices.row → float) (st : db) : db :=
  with_invoices
    (Table ((λ i, Invoices.Row (Invoices.invoice_no i) (Invoices.issue_date i)
                    (Invoices.due_date i) (Invoices.client_id i) (tax i)
                    (Invoices.total_amount i)) <$> rows (invoices st))
       (sqlite_sequence (invoices st))) st.

(** The writes of the service: a store changes by a call of
    [create_invoice] or of [delete_invoice], whatever its outcome. *)
Inductive step : db → db → Prop :=
| step_create invoice st : step st (create_invoice invoice st).2
| step_delete invoice_id st : step st (delete_invoice invoice_id st).2.

(** The stores the service reaches from the migrated, seeded store. *)
Definition reachable : db → Prop := rtc step upgrade.

End Spec.
Export Spec.

(** ** Concrete stores and requests, for the examples *)
Module Examples.

Definition issue : date := Date 2023 10 27.
Definition due : date := Date 2023 11 27.

Definition line (product_id quantity : Z) : InvoiceItemCreate.t :=
  InvoiceItemCreate.Make product_id quantity.

(** The request of [verify_invoices.py]: 2 of Widget A (10.0) and 1 of
    Gadget X (50.0) for Acme Corp. *)
Definition inv_001 : InvoiceCreate.t :=
  InvoiceCreate.Make 1 "INV-001" issue due [line 1 2; line 3 1].

Definition inv_002 : InvoiceCreate.t :=
  InvoiceCreate.Make 2 "INV-002" issue due [line 5 3].

(** The response to [inv_001] on the seeded store. *)
Definition r_001 : InvoiceResponse.t :=
  InvoiceResponse.Make 1 "INV-001" issue due "Acme Corp" 7 77
    [ InvoiceItemResponse.Make 0 "Widget A" 2 10 20;
      InvoiceItemResponse.Make 0 "Gadget X" 1 50 50 ].

(** The seeded store after the first, and after the first two, creations. *)
Definition st1 : db := (create_invoice inv_001 upgrade).2.
Definition st2 : db := (create_invoice inv_002 st1).2.

(** Requests that fail: the number of [inv_001] again, a line whose product
    is not in the catalog (after one that is), and an unknown client. *)
Definition inv_001_again : InvoiceCreate.t :=
  InvoiceCreate.Make 2 "INV-001" issue due [line 2 1].

Definition inv_missing_product : InvoiceCreate.t :=
  InvoiceCreate.Make 1 "INV-003" issue due [line 1 2; line 99 1; line 3 1].

Definition inv_missing_client : InvoiceCreate.t :=
  InvoiceCreate.Make 42 "INV-004" issue due [line 99 1].



(** Requests with an integer beyond what the code can handle: a quantity
    outside the range of a float, a quantity outside 64 bits, and ids outside
    64 bits. *)
Definition inv_huge_quantity : InvoiceCreate.t :=
  InvoiceCreate.Make 1 "INV-007" issue due [line 1 (2 ^ 1024)].


Definition inv_wide_product : InvoiceCreate.t :=
  InvoiceCreate.Make 1 "INV-009" issue due [line (2 ^ 63) 1].

Definition inv_wide_client : InvoiceCreate.t :=
  InvoiceCreate.Make (2 ^ 63) "INV-010" issue due [line 1 1].

End Examples.

(** ** Invariants of the stores the routes build *)
Module Invariants.

(** The third FOREIGN KEY clause of the migration:
    [invoice_items.product_id REFERENCES products (id)]. *)
Definition items_reference_products (st : db) : Prop :=
  ∀ id ii, rows (invoice_items st) !! id = Some ii →
    is_Some (rows (products st) !! InvoiceItems.product_id ii).

(** [invoice_no TEXT NOT NULL UNIQUE] as a predicate on a store. *)
Definition invoice_numbers_unique (st : db) : Prop :=
  ∀ id1 id2 i1 i2,
    rows (invoices st) !! id1 = Some i1 →
    rows (invoices st) !! id2 = Some i2 →
    Invoices.invoice_no i1 = Invoices.invoice_no i2 → id1 = id2.

(** [SELECT * FROM invoice_items WHERE invoice_id = ?]: the stored item rows
    of an invoice, without the join on products. *)
Definition stored_items (invoice_id : Z) (st : db) : list (Z * InvoiceItems.row) :=
  filter (λ ii, InvoiceItems.invoice_id ii.2 = invoice_id) (scan (invoice_items st)).

(** Every stored item row holds, as SQLite stores them, a price and that
    price × its quantity. *)
Definition line_totals_consistent (st : db) : Prop :=
  ∀ id ii, rows (invoice_items st) !! id = Some ii →
    ∃ price y,
      float_of_int (InvoiceItems.quantity ii) = Ok y
      ∧ sqlite_real price = Some (InvoiceItems.unit_price ii)
      ∧ sqlite_real (price * y) = Some (InvoiceItems.line_total ii).

(** The header of every invoice agrees with its stored item rows: there are
    line totals, stored in its item rows in rowid order, whose sum s from 0.0
    gives the stored tax_amount s × 0.10 and total_amount s + s × 0.10. *)
Definition totals_consistent (st : db) : Prop :=
  ∀ id i, rows (invoices st) !! id = Some i →
    ∃ line_totals,
      Forall2 (λ l ii, sqlite_real l = Some (InvoiceItems.line_total ii.2))
        line_totals (stored_items id st)
      ∧ sqlite_real (foldl PrimFloat.add 0%float line_totals * tax_rate)
        = Some (Invoices.tax_amount i)
      ∧ sqlite_real (foldl PrimFloat.add 0%float line_totals
                     + foldl PrimFloat.add 0%float line_totals * tax_rate)
        = Some (Invoices.total_amount i).

(** The summary that [list_invoices] shows for an invoice detail. *)
Definition summary (r : InvoiceResponse.t) : InvoiceListResponse.t :=
  InvoiceListResponse.Make (InvoiceResponse.id r) (InvoiceResponse.invoice_no r)
    (InvoiceResponse.issue_date r) (InvoiceResponse.due_date r)
    (InvoiceResponse.client_name r) (InvoiceResponse.total_amount r).

End Invariants.
Export Invariants.

(** ** [migrations/002_create_invoicing_tables.py]: [upgrade] and [downgrade] *)
Module Migration002.

(** The database file as the migration sees it: the [name] column of the
    rows of [_migrations], which the migration reads and writes but does not
    create, and the four tables of the migration, [None] for a table that
    does not exist. Dropping a table drops its [sqlite_sequence] entry with
    it. *)
Record database := Database {
  migrations : list string;
  clients : option (table Clients.row);
  products : option (table Products.row);
  invoices : option (table Invoices.row);
  invoice_items : option (table InvoiceItems.row) }.

Definition name : string := "002_create_invoicing_tables".

(** [CREATE TABLE IF NOT EXISTS]: an existing table is left as it is. *)
Definition create_table_if_not_exists {A} (t : option (table A)) : table A :=
  default empty_table t.

(** [upgrade()]: the database after [conn.commit()] or the early
    [conn.close()], and the line it prints. *)
Definition upgrade (d : database) : database * string :=
  (* SELECT 1 FROM _migrations WHERE name = ? *)
  if bool_decide (name ∈ migrations d)
  then (d, "Migration 002_create_invoicing_tables already applied. Skipping.")
  else
    let clients := create_table_if_not_exists (clients d) in
    let products := create_table_if_not_exists (products d) in
    let invoices := create_table_if_not_exists (invoices d) in
    let invoice_items := create_table_if_not_exists (invoice_items d) in
    let clients := executemany seed_clients clients in
    let products := executemany seed_products products in
    (* INSERT INTO _migrations (name) VALUES (?) *)
    (Database (migrations d ++ [name]) (Some clients) (Some products)
       (Some invoices) (Some invoice_items),
     "Migration 002_create_invoicing_tables applied successfully.").

(** [downgrade()]: the four [DROP TABLE IF EXISTS], then
    [DELETE FROM _migrations WHERE name = ?]. *)
Definition downgrade (d : database) : database * string :=
  (Database (filter (λ n, n ≠ name) (migrations d)) None None None None,
   "Migration 002_create_invoicing_tables reverted successfully.").

(** The store of the routes inside a database that has the four tables. *)
Definition of_db (ms : list string) (st : db) : database :=
  Database ms (Some (Schema.clients st)) (Some (Schema.products st))
    (Some (Schema.invoices st)) (Some (Schema.invoice_items st)).

End Migration002.

(** ** [verify_invoices.py]: the smoke test, run against the routes *)
Module VerifyInvoices.

(** What the script reads of an HTTP answer: the status code and the JSON
    body. A route that returns answers with the status code of its decorator
    (200 when the decorator names none) and its value as body; an
    [HTTPException] answers with its own status code and the body
    [{"detail": ...}]. *)
Inductive body :=
| InvoiceList (invoices : list InvoiceListResponse.t)
| Invoice (invoice : InvoiceResponse.t)
| Detail (detail : string)
| NoContent.

Record response := Response { status_code : Z; json : body }.

Definition respond {A} (status : Z) (to_body : A → body) (r : result A) : response :=
  match r with
  | Ok a => Response status (to_body a)
  | Raise (HTTPException status_code detail) => Response status_code (Detail detail)
  | Raise (Error _) => Response 500 (Detail "Internal Server Error")
  end.

(** [requests.get(f"{BASE_URL}/invoices")] and the three other calls. *)
Definition get_invoices (st : db) : response * db :=
  let '(r, st) := list_invoices st in (respond 200 InvoiceList r, st).

Definition post_invoices (payload : InvoiceCreate.t) (st : db) : response * db :=
  let '(r, st) := create_invoice payload st in (respond 201 Invoice r, st).

Definition get_invoice_by_id (invoice_id : Z) (st : db) : response * db :=
  let '(r, st) := get_invoice invoice_id st in (respond 200 Invoice r, st).

Definition delete_invoice_by_id (invoice_id : Z) (st : db) : response * db :=
  let '(r, st) := delete_invoice invoice_id st in (respond 204 (λ _, NoContent) r, st).

(** [len(resp.json())]: the length of a list, the number of keys of an
    object; an empty body is not JSON. *)
Definition json_len (b : body) : option nat :=
  match b with
  | InvoiceList invoices => Some (length invoices)
  | Invoice _ => Some 8%nat
  | Detail _ => Some 1%nat
  | NoContent => None
  end.

(** An answer of the service to [GET /docs] while the script waits. *)
Inductive probe :=
| Answer (status_code : Z)
| ConnectionError.

(** The [for _ in range(10)] loop: it breaks at the first answer 200 among
    at most ten probes; its [else] branch runs when there is none. *)
Definition service_ready (docs : nat → probe) : bool :=
  existsb (λ n, match docs n with
                | Answer status_code => bool_decide (status_code = 200)
                | ConnectionError => false
                end) (seq 0 10).

Inductive outcome :=
| AllTestsPassed
| NotReachable
| AssertionError (line : Z)
| Uncaught (exception : string).

Definition payload : InvoiceCreate.t :=
  InvoiceCreate.Make 1 "INV-001" (Date 2023 10 27) (Date 2023 11 27)
    [ InvoiceItemCreate.Make 1 2; InvoiceItemCreate.Make 3 1 ].

(** Steps 3 to 6 of [test_invoices], from the id of the created invoice. *)
Definition test_created (invoice_id : Z) (st : db) : outcome * db :=
  (* 3. Get Invoice *)
  let '(resp, st) := get_invoice_by_id invoice_id st in
  if negb (bool_decide (status_code resp = 200)) then (AssertionError 54, st) else
  match json resp with
  | Invoice got =>
    if negb (String.eqb (InvoiceResponse.invoice_no got) "INV-001")
    then (AssertionError 55, st) else
    if negb (length (InvoiceResponse.items got) =? 2)%nat
    then (AssertionError 56, st) else
    (* 4. List Invoices again *)
    let '(resp, st) := get_invoices st in
    match json_len (json resp) with
    | None => (Uncaught "JSONDecodeError", st)
    | Some len =>
      if negb (1 <=? len)%nat then (AssertionError 62, st) else
      (* 5. Delete Invoice *)
      let '(resp, st) := delete_invoice_by_id invoice_id st in
      if negb (bool_decide (status_code resp = 204)) then (AssertionError 68, st) else
      (* 6. Verify Deletion *)
      let '(resp, st) := get_invoice_by_id invoice_id st in
      if negb (bool_decide (status_code resp = 404)) then (AssertionError 74, st) else
      (AllTestsPassed, st)
    end
  | _ => (Uncaught "KeyError", st)
  end.

Definition test_invoices (docs : nat → probe) (st : db) : outcome * db :=
  if negb (service_ready docs) then (NotReachable, st) else
  (* 1. List Invoices *)
  let '(resp, st) := get_invoices st in
  if negb (bool_decide (status_code resp = 200)) then (AssertionError 28, st) else
  match json resp with
  | InvoiceList _ =>
    (* 2. Create Invoice *)
    let '(resp, st) := post_invoices payload st in
    if negb (bool_decide (status_code resp = 201)) then (AssertionError 46, st) else
    match json resp with
    | Invoice created =>
      let invoice_id := InvoiceResponse.id created in
      if negb (PrimFloat.eqb (InvoiceResponse.total_amount created) 77)
      then (AssertionError 48, st)
      else test_created invoice_id st
    | _ => (Uncaught "KeyError", st)
    end
  | _ => (AssertionError 29, st)
  end.

End VerifyInvoices.

(** ** More stores, for the examples of the invariants *)
Module Scenarios.

(** The store with INV-001 after the row of its client, Acme Corp, has been
    deleted outside the routes. *)
Definition st1_client_gone : db :=
  Db (delete_row 1 (clients Examples.st1)) (products Examples.st1)
     (invoices Examples.st1) (invoice_items Examples.st1).

(** INV-001 and INV-002 created, then INV-001 deleted. *)
Definition st3 : db := (delete_invoice 1 Examples.st2).2.

End Scenarios.

(** * Properties *)

(** ** Rowids and table scans *)
Section tables.
Context {A : Type}.
Implicit Types (t : table A) (m : gmap Z A) (r : A) (k : Z).

Lemma max_rowid_bounds m : 0 ≤ max_rowid m ∧ ∀ k r, m !! k = Some r → k ≤ max_rowid m.
Proof.
  unfold max_rowid.
  apply (map_fold_weak_ind (λ acc m, 0 ≤ acc ∧ ∀ k r, m !! k = Some r → k ≤ acc)).
  - split; [lia|]. intros k r. by rewrite lookup_empty.
  - intros i x m' acc _ [Hacc IH]. split; [lia|].
    intros k r. rewrite lookup_insert. case_decide as Hk.
    + subst. lia.
    + intros Hl. specialize (IH _ _ Hl). lia.
Qed.

Lemma next_rowid_pos t : 1 ≤ next_rowid t.
Proof. unfold next_rowid. pose proof (max_rowid_bounds (rows t)). lia. Qed.

Lemma next_rowid_above t k r : rows t !! k = Some r → k < next_rowid t.
Proof.
  intros Hk. unfold next_rowid.
  destruct (max_rowid_bounds (rows t)) as [_ Hb]. specialize (Hb _ _ Hk). lia.
Qed.

Lemma next_rowid_fresh t : rows t !! next_rowid t = None.
Proof.
  destruct (rows t !! next_rowid t) as [r|] eqn:Hk; [|done].
  apply next_rowid_above in Hk. lia.
Qed.

Lemma next_rowid_insert r t : next_rowid (insert_row r t).2 = next_rowid t + 1.
Proof.
  unfold insert_row. cbn [snd]. unfold next_rowid at 1. cbn [rows sqlite_sequence].
  destruct (max_rowid_bounds (<[next_rowid t:=r]> (rows t))) as [_ Hb].
  assert (max_rowid (<[next_rowid t:=r]> (rows t)) ≤ next_rowid t); [|lia].
  unfold max_rowid.
  apply (map_fold_weak_ind (λ acc m, (∀ k r, m !! k = Some r → k ≤ next_rowid t) → acc ≤ next_rowid t)).
  - intros _. pose proof (next_rowid_pos t). lia.
  - intros i x m' acc Hi IH Hall.
    assert (i ≤ next_rowid t) by (apply (Hall i x), lookup_insert_eq).
    assert (acc ≤ next_rowid t); [|lia].
    apply IH. intros k' r' Hk'. apply (Hall k' r').
    rewrite lookup_insert_ne; [done|]. intros ->. congruence.
  - intros k' r'. rewrite lookup_insert. case_decide; [lia|].
    intros Hk'. apply next_rowid_above in Hk'. lia.
Qed.

Lemma elem_of_rowids t k : k ∈ rowids t ↔ is_Some (rows t !! k).
Proof.
  unfold rowids. rewrite merge_sort_Permutation, list_elem_of_fmap. split.
  - intros [[k' r] [-> Hin]]. apply elem_of_map_to_list in Hin. eauto.
  - intros [r Hr]. exists (k, r). split; [done|]. by apply elem_of_map_to_list.
Qed.

Lemma rowids_sorted t : StronglySorted Z.le (rowids t).
Proof. apply (StronglySorted_merge_sort _). Qed.

Lemma rowids_NoDup t : NoDup (rowids t).
Proof.
  unfold rowids. rewrite merge_sort_Permutation. apply NoDup_fst_map_to_list.
Qed.

Lemma rowids_insert r t : rowids (insert_row r t).2 = rowids t ++ [next_rowid t].
Proof.
  apply (StronglySorted_unique Z.le).
  - apply rowids_sorted.
  - apply StronglySorted_app_2; [|apply rowids_sorted|repeat constructor].
    intros k1 k2 [r1 Hk1]%elem_of_rowids ->%list_elem_of_singleton.
    apply next_rowid_above in Hk1. lia.
  - unfold rowids, insert_row. cbn [snd rows].
    rewrite !merge_sort_Permutation.
    rewrite (map_to_list_insert _ _ _ (next_rowid_fresh t)).
    rewrite fmap_cons. cbn [fst]. by rewrite Permutation_cons_append.
Qed.

Lemma elem_of_scan t k r : (k, r) ∈ scan t ↔ rows t !! k = Some r.
Proof.
  unfold scan. rewrite list_elem_of_omap. split.
  - intros (k' & _ & Hk'). destruct (rows t !! k') as [r'|] eqn:E; simplify_eq/=. done.
  - intros Hk. exists k. split; [apply elem_of_rowids; eauto|]. by rewrite Hk.
Qed.

Lemma scan_rowids t : (scan t).*1 = rowids t.
Proof.
  unfold scan.
  assert (Forall (λ k, is_Some (rows t !! k)) (rowids t)) as Hall.
  { apply Forall_forall. intros k. apply elem_of_rowids. }
  induction Hall as [|k l [r Hk] _ IH]; [done|].
  cbn. rewrite Hk. cbn. by rewrite IH.
Qed.

Lemma scan_insert r t : scan (insert_row r t).2 = scan t ++ [(next_rowid t, r)].
Proof.
  unfold scan at 1. rewrite rowids_insert, omap_app. f_equal.
  - apply list_omap_ext, Forall_Forall2_diag. unfold insert_row. cbn [snd rows].
    apply Forall_forall. intros k [r' Hk]%elem_of_rowids.
    rewrite lookup_insert_ne; [done|].
    apply next_rowid_above in Hk. lia.
  - unfold insert_row. cbn. by rewrite lookup_insert_eq.
Qed.

Lemma scan_executemany (rs : list A) t :
  scan (executemany rs t)
    = scan t ++ zip (seqZ (next_rowid t) (Z.of_nat (length rs))) rs
  ∧ next_rowid (executemany rs t) = next_rowid t + Z.of_nat (length rs).
Proof.
  unfold executemany. revert t. induction rs as [|r rs IH]; intros t.
  - cbn. rewrite app_nil_r. split; [done|lia].
  - cbn [foldl]. destruct (IH (insert_row r t).2) as [-> ->].
    rewrite scan_insert, next_rowid_insert. split.
    + rewrite <-app_assoc. f_equal. cbn [length].
      rewrite (seqZ_cons (next_rowid t)) by lia. cbn. do 3 f_equal; lia.
    + cbn [length]. lia.
Qed.

End tables.

(** ** Binding and looking up *)

Lemma bind_rowid_found {A} (t : table A) id r :
  rows t !! id = Some r → bind_rowid id t = Ok ().
Proof. intros Hid. unfold bind_rowid. by rewrite Hid. Qed.

Lemma bind_rowid_absent {A} (t : table A) id :
  rows t !! id = None → bind_rowid id t = bind_int id.
Proof. intros Hid. unfold bind_rowid. by rewrite Hid. Qed.

Lemma bind_int_in_range n : in_int64 n → bind_int n = Ok ().
Proof. intros Hn. unfold bind_int. by rewrite decide_True. Qed.

Lemma bind_int_out_of_range n :
  ¬ in_int64 n →
  bind_int n
  = Raise (Error (OverflowError "Python int too large to convert to SQLite INTEGER")).
Proof. intros Hn. unfold bind_int. by rewrite decide_False. Qed.

(** On a table whose rowids are 64-bit integers, as those of an SQLite
    table are, binding an id to a comparison with its rowid is binding the
    integer. *)
Lemma bind_rowid_bind_int {A} (t : table A) id :
  (∀ k r, rows t !! k = Some r → in_int64 k) →
  bind_rowid id t = bind_int id.
Proof.
  intros Hrowids. unfold bind_rowid.
  destruct (rows t !! id) as [r|] eqn:Hid; [|done].
  symmetry. by eapply bind_int_in_range, Hrowids.
Qed.

Lemma select_product_found st product_id product :
  rows (products st) !! product_id = Some product →
  select_product product_id st = Ok (Some (product_id, product)).
Proof.
  intros Hp. unfold select_product. rewrite (bind_rowid_found _ _ _ Hp). cbn.
  by rewrite Hp.
Qed.

Lemma select_client_found st client_id client :
  rows (clients st) !! client_id = Some client →
  select_client client_id st = Ok (Some (client_id, client)).
Proof.
  intros Hc. unfold select_client. rewrite (bind_rowid_found _ _ _ Hc). cbn.
  by rewrite Hc.
Qed.

(** ** Pricing *)

Lemma calculate_invoice_totals_loop_priced items st ps total_amount processed_items :
  Forall2 (priced st) items ps →
  calculate_invoice_totals_loop items st total_amount processed_items
  = Ok (foldl PrimFloat.add total_amount (ProcessedItem.line_total <$> ps),
        processed_items ++ ps).
Proof.
  intros Hps. revert total_amount processed_items.
  induction Hps as [|item p items ps (product & y & Hp & Hy & ->) _ IH];
    intros total_amount processed_items.
  - cbn. by rewrite app_nil_r.
  - cbn [calculate_invoice_totals_loop].
    rewrite (select_product_found _ _ _ Hp). cbn [mbind result_bind fst snd].
    unfold mul_int. rewrite Hy. cbn [mbind result_bind].
    rewrite IH. cbn. by rewrite <-app_assoc.
Qed.

Lemma products_exist_priced items st :
  products_exist items st → quantities_convert items →
  ∃ ps, Forall2 (priced st) items ps.
Proof.
  induction 1 as [|item items [product Hp] _ IH]; intros Hq.
  - exists []. constructor.
  - apply Forall_cons in Hq as [[y Hy] Hq]. destruct (IH Hq) as [ps Hps].
    eexists (_ :: ps). constructor; [|done]. by exists product, y.
Qed.

Lemma priced_products_exist st items ps :
  Forall2 (priced st) items ps → products_exist items st ∧ quantities_convert items.
Proof.
  unfold products_exist, quantities_convert.
  induction 1 as [|item p items ps (product & y & Hp & Hy & _) _ [IH1 IH2]];
    split; constructor; eauto.
Qed.


Lemma calculate_invoice_totals_priced items st ps :
  Forall2 (priced st) items ps →
  calculate_invoice_totals items st
  = Ok (ps, (subtotal ps * tax_rate)%float,
        (subtotal ps + subtotal ps * tax_rate)%float).
Proof.
  intros Hps. unfold calculate_invoice_totals.
  by rewrite (calculate_invoice_totals_loop_priced _ _ _ _ _ Hps).
Qed.

(** C1, the claim fails: on the seeded catalog the one line (product 1,
    quantity 2^1024) names an existing product, and the pricing raises
    [OverflowError] at [product["price"] * item.quantity]. *)
Lemma calculate_invoice_totals_huge_quantity :
  products_exist (InvoiceCreate.items Examples.inv_huge_quantity) upgrade
  ∧ calculate_invoice_totals (InvoiceCreate.items Examples.inv_huge_quantity) upgrade
    = Raise (Error (OverflowError "int too large to convert to float")).
Proof. split; [repeat constructor; vm_compute; eauto|vm_compute; reflexivity]. Qed.

(** C1, amended. When every line of the item list names a product of the
    catalog and has a quantity within the range of a float,
    [calculate_invoice_totals] returns the lines priced in input order, each
    with line_total = unit_price × quantity, a tax of subtotal × 0.10 and a
    total of subtotal + tax, the subtotal being the sum of the line totals. *)
Theorem calculate_invoice_totals_correct items st :
  products_exist items st →
  quantities_convert items →
  ∃ ps, Forall2 (priced st) items ps
    ∧ calculate_invoice_totals items st
      = Ok (ps, (subtotal ps * tax_rate)%float,
            (subtotal ps + subtotal ps * tax_rate)%float).
Proof.
  intros Hall Hq. destruct (products_exist_priced items st Hall Hq) as [ps Hps].
  exists ps. split; [done|]. unfold calculate_invoice_totals.
  by rewrite (calculate_invoice_totals_loop_priced _ _ _ _ _ Hps).
Qed.

(** The example of the specification, on the seeded catalog: 2 × 10.0 and
    1 × 50.0 give subtotal 70.0, tax 7.0 and total 77.0. *)
Lemma calculate_invoice_totals_example :
  products_exist (InvoiceCreate.items Examples.inv_001) upgrade
  ∧ quantities_convert (InvoiceCreate.items Examples.inv_001)
  ∧ (∃ ps, Forall2 (priced upgrade) (InvoiceCreate.items Examples.inv_001) ps
       ∧ calculate_invoice_totals (InvoiceCreate.items Examples.inv_001) upgrade
         = Ok (ps, (subtotal ps * tax_rate)%float,
               (subtotal ps + subtotal ps * tax_rate)%float))
  ∧ calculate_invoice_totals (InvoiceCreate.items Examples.inv_001) upgrade
    = Ok ([ ProcessedItem.Make 1 "Widget A" 10 2 20;
            ProcessedItem.Make 3 "Gadget X" 50 1 50 ], 7%float, 77%float)
  ∧ subtotal [ ProcessedItem.Make 1 "Widget A" 10 2 20;
               ProcessedItem.Make 3 "Gadget X" 50 1 50 ] = 70%float.
Proof.
  assert (products_exist (InvoiceCreate.items Examples.inv_001) upgrade) as Hall.
  { repeat constructor; vm_compute; eauto. }
  assert (quantities_convert (InvoiceCreate.items Examples.inv_001)) as Hq.
  { repeat constructor; vm_compute; eauto. }
  split; [exact Hall|]. split; [exact Hq|]. split; [|split; vm_compute; reflexivity].
  exact (calculate_invoice_totals_correct _ _ Hall Hq).
Defined.

Lemma calculate_invoice_totals_loop_Ok items st total_amount processed_items t out :
  calculate_invoice_totals_loop items st total_amount processed_items = Ok (t, out) →
  ∃ ps, Forall2 (priced st) items ps
    ∧ t = foldl PrimFloat.add total_amount (ProcessedItem.line_total <$> ps)
    ∧ out = processed_items ++ ps.
Proof.
  revert total_amount processed_items.
  induction items as [|item items IH]; intros total_amount processed_items.
  - cbn. intros [= <- <-]. exists []. by rewrite app_nil_r.
  - cbn [calculate_invoice_totals_loop]. unfold select_product.
    destruct (rows (products st) !! InvoiceItemCreate.product_id item) as [product|] eqn:Hp.
    2:{ rewrite (bind_rowid_absent _ _ Hp). by destruct (bind_int _). }
    rewrite (bind_rowid_found _ _ _ Hp). cbn [mbind result_bind fmap option_fmap option_map fst snd].
    unfold mul_int.
    destruct (float_of_int (InvoiceItemCreate.quantity item)) as [y|e] eqn:Hy; [|done].
    cbn [mbind result_bind]. intros (ps & Hps & -> & ->)%IH.
    eexists (_ :: ps). split; [|split].
    + constructor; [|done]. by exists product, y.
    + done.
    + by rewrite <-app_assoc.
Qed.

Lemma calculate_invoice_totals_Ok items st ps tax_amount total_amount :
  calculate_invoice_totals items st = Ok (ps, tax_amount, total_amount) →
  Forall2 (priced st) items ps
  ∧ tax_amount = (subtotal ps * tax_rate)%float
  ∧ total_amount = (subtotal ps + subtotal ps * tax_rate)%float.
Proof.
  unfold calculate_invoice_totals.
  destruct (calculate_invoice_totals_loop items st 0%float []) as [[t out]|e] eqn:Hloop;
    [|done].
  apply calculate_invoice_totals_loop_Ok in Hloop as (ps' & Hps & -> & ->).
  cbn. by intros [= <- <- <-].
Qed.

Lemma float_of_int_Raise n e :
  float_of_int n = Raise e →
  e = Error (OverflowError "int too large to convert to float").
Proof. unfold float_of_int. case_match; congruence. Qed.

Lemma calculate_invoice_totals_loop_line_fails before ps item after st e
    total_amount processed_items :
  Forall2 (priced st) before ps →
  line_fails st item e →
  calculate_invoice_totals_loop (before ++ item :: after) st total_amount processed_items
  = Raise e.
Proof.
  intros Hps Hfail. revert total_amount processed_items.
  induction Hps as [|item' p before ps (product & y & Hp & Hy & ->) _ IH];
    intros total_amount processed_items.
  - cbn [app calculate_invoice_totals_loop]. unfold select_product.
    destruct Hfail as [(Hnone & Hrange & ->)|[(Hnone & Hrange & ->)|([product Hp] & Hy & _)]].
    + rewrite (bind_rowid_absent _ _ Hnone), (bind_int_in_range _ Hrange). cbn.
      by rewrite Hnone.
    + by rewrite (bind_rowid_absent _ _ Hnone), (bind_int_out_of_range _ Hrange).
    + rewrite (bind_rowid_found _ _ _ Hp). cbn. rewrite Hp. cbn.
      unfold mul_int. by rewrite Hy.
  - cbn [app calculate_invoice_totals_loop].
    rewrite (select_product_found _ _ _ Hp). cbn [mbind result_bind fst snd].
    unfold mul_int. rewrite Hy. cbn [mbind result_bind]. apply IH.
Qed.

Lemma calculate_invoice_totals_line_fails before ps item after st e :
  Forall2 (priced st) before ps →
  line_fails st item e →
  calculate_invoice_totals (before ++ item :: after) st = Raise e.
Proof.
  intros Hps Hfail. unfold calculate_invoice_totals.
  by rewrite (calculate_invoice_totals_loop_line_fails _ _ _ _ _ _ _ _ Hps Hfail).
Qed.

Lemma first_failing_line items st :
  (∃ ps, Forall2 (priced st) items ps)
  ∨ ∃ before ps item after e,
      items = before ++ item :: after
      ∧ Forall2 (priced st) before ps
      ∧ line_fails st item e.
Proof.
  induction items as [|item items IH]; [left; exists []; constructor|].
  destruct (rows (products st) !! InvoiceItemCreate.product_id item) as [product|] eqn:Hp.
  - destruct (float_of_int (InvoiceItemCreate.quantity item)) as [y|e] eqn:Hy.
    + destruct IH as [[ps Hps]|(before & ps & item' & after & e & -> & Hps & Hfail)].
      * left. eexists (_ :: ps). constructor; [|done]. by exists product, y.
      * right. eexists (item :: before), (_ :: ps), item', after, e.
        split; [done|]. split; [|done]. constructor; [|done]. by exists product, y.
    + right. exists [], [], item, items, e. split; [done|]. split; [constructor|].
      right. right. split; [by eauto|]. split; [done|]. by eapply float_of_int_Raise.
  - right. destruct (decide (in_int64 (InvoiceItemCreate.product_id item))).
    + eexists [], [], item, items, _. split; [done|]. split; [constructor|].
      left. eauto.
    + eexists [], [], item, items, _. split; [done|]. split; [constructor|].
      right. left. eauto.
Qed.

Lemma calculate_invoice_totals_Raise items st e :
  calculate_invoice_totals items st = Raise e →
  ∃ before ps item after,
    items = before ++ item :: after
    ∧ Forall2 (priced st) before ps
    ∧ line_fails st item e.
Proof.
  intros Hraise.
  destruct (first_failing_line items st)
    as [[ps Hps]|(before & ps & item & after & e' & -> & Hps & Hfail)].
  - by rewrite (calculate_invoice_totals_priced _ _ _ Hps) in Hraise.
  - rewrite (calculate_invoice_totals_line_fails _ _ _ _ _ _ Hps Hfail) in Hraise.
    injection Hraise as ->. eauto 10.
Qed.

(** [calculate_invoice_totals] returns normally only when every line names
    a product of the catalog and has a quantity within the range of a
    float. When it raises, every line before some line is priced and that
    line fails in one of three ways: its product id is a 64-bit integer
    without a row (the 404 that names it), its product id cannot be bound
    ([OverflowError]), or its quantity is too large for a float
    ([OverflowError]). *)
Theorem calculate_invoice_totals_outcome items st :
  match calculate_invoice_totals items st with
  | Ok _ => products_exist items st ∧ quantities_convert items
  | Raise e =>
      ∃ before ps item after,
        items = before ++ item :: after
        ∧ Forall2 (priced st) before ps
        ∧ line_fails st item e
  end.
Proof.
  destruct (calculate_invoice_totals items st) as [[[ps tax] total]|e] eqn:Hcalc.
  - apply calculate_invoice_totals_Ok in Hcalc as (Hps & _). by eapply priced_products_exist.
  - by apply calculate_invoice_totals_Raise.
Qed.

(** ** Creation *)

Lemma create_invoice_block_unfold invoice st :
  create_invoice_block invoice st
  = match select_client (InvoiceCreate.client_id invoice) st with
    | Raise e => (Raise e, st)
    | Ok None => (Raise (HTTPException 404 "Client not found"), st)
    | Ok (Some client) =>
      match calculate_invoice_totals (InvoiceCreate.items invoice) st with
      | Raise e => (Raise e, st)
      | Ok (ps, tax_amount, total_amount) =>
        match insert_invoice
                (Invoices.Row (InvoiceCreate.invoice_no invoice)
                   (InvoiceCreate.issue_date invoice) (InvoiceCreate.due_date invoice)
                   (InvoiceCreate.client_id invoice) tax_amount total_amount) st with
        | Raise e => (Raise (Error (NameError "sqlite3")), st)
        | Ok (invoice_id, conn) =>
          match insert_invoice_items invoice_id ps conn with
          | (Raise e, conn) => (Raise e, conn)
          | (Ok _, conn) =>
              (Ok (InvoiceResponse.Make invoice_id (InvoiceCreate.invoice_no invoice)
                     (InvoiceCreate.issue_date invoice) (InvoiceCreate.due_date invoice)
                     (Clients.name client.2) tax_amount total_amount
                     (response_item <$> ps)), conn)
          end
        end
      end
    end.
Proof.
  unfold create_invoice_block, mbind, block_bind, read, raise.
  destruct (select_client _ st) as [[client|]|e]; [|done|done].
  destruct (calculate_invoice_totals _ st) as [[[ps tax] total]|e]; [|done].
  unfold try_except_IntegrityError, write.
  destruct (insert_invoice _ st) as [[n conn]|e]; [|done].
  cbn. by destruct (insert_invoice_items n ps conn) as [[[]|e] conn'].
Qed.

Lemma insert_invoice_stored invoice st client tax_amount total_amount tax total :
  rows (clients st) !! InvoiceCreate.client_id invoice = Some client →
  sqlite_real tax_amount = Some tax →
  sqlite_real total_amount = Some total →
  invoice_no_taken (InvoiceCreate.invoice_no invoice) (invoices st) = false →
  insert_invoice
    (Invoices.Row (InvoiceCreate.invoice_no invoice) (InvoiceCreate.issue_date invoice)
       (InvoiceCreate.due_date invoice) (InvoiceCreate.client_id invoice)
       tax_amount total_amount) st
  = Ok (next_rowid (invoices st),
        with_invoices (insert_row (created_row invoice tax total) (invoices st)).2 st).
Proof.
  intros Hclient Htax Htotal Hfree. unfold insert_invoice, real_not_null.
  cbn [Invoices.client_id Invoices.tax_amount Invoices.total_amount Invoices.invoice_no
       Invoices.issue_date Invoices.due_date].
  rewrite (bind_rowid_found _ _ _ Hclient), Htax, Htotal. cbn [mbind result_bind].
  by rewrite Hfree.
Qed.

Lemma insert_invoice_Ok invoice st tax_amount total_amount n conn :
  insert_invoice
    (Invoices.Row (InvoiceCreate.invoice_no invoice) (InvoiceCreate.issue_date invoice)
       (InvoiceCreate.due_date invoice) (InvoiceCreate.client_id invoice)
       tax_amount total_amount) st
  = Ok (n, conn) →
  ∃ tax total,
    sqlite_real tax_amount = Some tax
    ∧ sqlite_real total_amount = Some total
    ∧ invoice_no_taken (InvoiceCreate.invoice_no invoice) (invoices st) = false
    ∧ n = next_rowid (invoices st)
    ∧ conn = with_invoices (insert_row (created_row invoice tax total) (invoices st)).2 st.
Proof.
  unfold insert_invoice, real_not_null.
  cbn [Invoices.client_id Invoices.tax_amount Invoices.total_amount Invoices.invoice_no
       Invoices.issue_date Invoices.due_date].
  destruct (bind_rowid _ _); [|done]. cbn [mbind result_bind].
  destruct (sqlite_real tax_amount) as [tax|]; [|done]. cbn [mbind result_bind].
  destruct (sqlite_real total_amount) as [total|]; [|done]. cbn [mbind result_bind].
  destruct (invoice_no_taken _ _) eqn:Hfree; [done|].
  cbn. intros [= <- <-]. eauto 10.
Qed.

Lemma insert_invoice_items_persisted n ps rs conn :
  is_Some (rows (invoices conn) !! n) →
  Forall (λ p, is_Some (rows (products conn) !! ProcessedItem.product_id p)) ps →
  Forall2 (persisted n) ps rs →
  insert_invoice_items n ps conn
  = (Ok (), with_invoice_items (executemany rs (invoice_items conn)) conn).
Proof.
  intros [i Hi] Hall Hrs. revert conn Hi Hall.
  induction Hrs as [|p row ps rs (Hq & Hu & Hl & Hinv & Hpid & Hqty) _ IH];
    intros conn Hi Hall.
  - cbn. by destruct conn.
  - apply Forall_cons in Hall as [[product Hproduct] Hall].
    cbn [insert_invoice_items]. unfold mbind at 1, block_bind, write at 1.
    unfold insert_invoice_item, real_not_null.
    cbn [item_row InvoiceItems.invoice_id InvoiceItems.product_id InvoiceItems.quantity
         InvoiceItems.unit_price InvoiceItems.line_total].
    rewrite (bind_rowid_found _ _ _ Hi), (bind_rowid_found _ _ _ Hproduct),
      (bind_int_in_range _ Hq), Hu, Hl.
    cbn [mbind result_bind]. rewrite IH; [|done|done].
    unfold executemany. cbn [foldl invoice_items with_invoice_items].
    destruct row as [inv pid qty u l]. cbn in Hinv, Hpid, Hqty. subst.
    by destruct conn.
Qed.

Lemma insert_invoice_items_Ok n ps conn u conn' :
  insert_invoice_items n ps conn = (Ok u, conn') →
  ∃ rs, Forall2 (persisted n) ps rs
    ∧ conn' = with_invoice_items (executemany rs (invoice_items conn)) conn.
Proof.
  revert conn. induction ps as [|p ps IH]; intros conn.
  - cbn. intros [= _ <-]. exists []. split; [constructor|by destruct conn].
  - cbn [insert_invoice_items]. unfold mbind at 1, block_bind, write at 1.
    unfold insert_invoice_item, real_not_null.
    cbn [item_row InvoiceItems.invoice_id InvoiceItems.product_id InvoiceItems.quantity
         InvoiceItems.unit_price InvoiceItems.line_total].
    destruct (bind_rowid n _); [|done]. cbn [mbind result_bind].
    destruct (bind_rowid (ProcessedItem.product_id p) _); [|done]. cbn [mbind result_bind].
    unfold bind_int. destruct (decide (in_int64 (ProcessedItem.quantity p))) as [Hq|];
      [|done]. cbn [mbind result_bind].
    destruct (sqlite_real (ProcessedItem.unit_price p)) as [up|] eqn:Hu; [|done].
    cbn [mbind result_bind].
    destruct (sqlite_real (ProcessedItem.line_total p)) as [lt|] eqn:Hl; [|done].
    cbn [mbind result_bind].
    intros (rs & Hrs & ->)%IH.
    exists (InvoiceItems.Row n (ProcessedItem.product_id p) (ProcessedItem.quantity p)
              up lt :: rs).
    split.
    + constructor; [|done]. split; [done|]. by repeat split.
    + unfold executemany. cbn [foldl invoice_items with_invoice_items].
      by destruct conn.
Qed.

Lemma database_error_Ok {A} (r : result A * db) a st' :
  database_error r = (Ok a, st') → r = (Ok a, st').
Proof. destruct r as [[a'|[c d|e]] s]; cbn; congruence. Qed.

Lemma get_db_Ok {A} (body : block A) st a st' :
  get_db body st = (Ok a, st') → body st = (Ok a, st').
Proof. unfold get_db. by destruct (body st) as [[a'|e] s]. Qed.

Lemma priced_elem st items ps p :
  Forall2 (priced st) items ps → p ∈ ps →
  ∃ product y, rows (products st) !! ProcessedItem.product_id p = Some product
    ∧ float_of_int (ProcessedItem.quantity p) = Ok y
    ∧ ProcessedItem.product_name p = Products.name product
    ∧ ProcessedItem.unit_price p = Products.price product
    ∧ ProcessedItem.line_total p = (Products.price product * y)%float.
Proof.
  intros Hps Hp. apply list_elem_of_lookup in Hp as [k Hk].
  destruct (Forall2_lookup_r _ _ _ _ _ Hps Hk) as (item & _ & product & y & Hproduct & Hy & ->).
  by exists product, y.
Qed.

Lemma create_invoice_block_success invoice st client ps tax total rs :
  rows (clients st) !! InvoiceCreate.client_id invoice = Some client →
  Forall2 (priced st) (InvoiceCreate.items invoice) ps →
  sqlite_real (subtotal ps * tax_rate) = Some tax →
  sqlite_real (subtotal ps + subtotal ps * tax_rate) = Some total →
  invoice_no_taken (InvoiceCreate.invoice_no invoice) (invoices st) = false →
  Forall2 (persisted (next_rowid (invoices st))) ps rs →
  create_invoice_block invoice st
  = (Ok (created_response invoice client ps st), created_store invoice tax total rs st).
Proof.
  intros Hclient Hps Htax Htotal Hfree Hrs.
  rewrite create_invoice_block_unfold, (select_client_found _ _ _ Hclient),
    (calculate_invoice_totals_priced _ _ _ Hps),
    (insert_invoice_stored _ _ _ _ _ _ _ Hclient Htax Htotal Hfree).
  rewrite (insert_invoice_items_persisted _ _ rs).
  - by destruct st.
  - cbn [invoices with_invoices insert_row snd rows]. rewrite lookup_insert_eq. eauto.
  - apply Forall_forall. intros p Hp.
    destruct (priced_elem _ _ _ _ Hps Hp) as (product & y & Hproduct & _).
    cbn [products with_invoices]. eauto.
  - done.
Qed.

Lemma create_invoice_success invoice st client ps tax total rs :
  rows (clients st) !! InvoiceCreate.client_id invoice = Some client →
  Forall2 (priced st) (InvoiceCreate.items invoice) ps →
  sqlite_real (subtotal ps * tax_rate) = Some tax →
  sqlite_real (subtotal ps + subtotal ps * tax_rate) = Some total →
  invoice_no_taken (InvoiceCreate.invoice_no invoice) (invoices st) = false →
  Forall2 (persisted (next_rowid (invoices st))) ps rs →
  create_invoice invoice st
  = (Ok (created_response invoice client ps st), created_store invoice tax total rs st).
Proof.
  intros Hclient Hps Htax Htotal Hfree Hrs. unfold create_invoice, get_db.
  by rewrite (create_invoice_block_success _ _ _ _ _ _ _ Hclient Hps Htax Htotal Hfree Hrs).
Qed.

Lemma select_client_Ok_Some client_id st row :
  select_client client_id st = Ok (Some row) →
  row.1 = client_id ∧ rows (clients st) !! client_id = Some row.2.
Proof.
  unfold select_client. destruct (bind_rowid _ _); [|done]. cbn.
  destruct (rows (clients st) !! client_id); [|done]. by intros [= <-].
Qed.

Lemma create_invoice_Ok invoice st r st' :
  create_invoice invoice st = (Ok r, st') →
  ∃ client ps tax total rs,
    rows (clients st) !! InvoiceCreate.client_id invoice = Some client
    ∧ Forall2 (priced st) (InvoiceCreate.items invoice) ps
    ∧ sqlite_real (subtotal ps * tax_rate) = Some tax
    ∧ sqlite_real (subtotal ps + subtotal ps * tax_rate) = Some total
    ∧ invoice_no_taken (InvoiceCreate.invoice_no invoice) (invoices st) = false
    ∧ Forall2 (persisted (next_rowid (invoices st))) ps rs
    ∧ r = created_response invoice client ps st
    ∧ st' = created_store invoice tax total rs st.
Proof.
  intros Hok. pose proof Hok as Hblock.
  apply database_error_Ok, get_db_Ok in Hblock.
  rewrite create_invoice_block_unfold in Hblock.
  destruct (select_client _ st) as [[client|]|e] eqn:Hclient; [|done|done].
  apply select_client_Ok_Some in Hclient as [_ Hclient].
  destruct (calculate_invoice_totals _ st) as [[[ps tax0] total0]|e] eqn:Hcalc; [|done].
  apply calculate_invoice_totals_Ok in Hcalc as (Hps & -> & ->).
  destruct (insert_invoice _ st) as [[n conn]|e] eqn:Hins; [|done].
  apply insert_invoice_Ok in Hins as (tax & total & Htax & Htotal & Hfree & -> & ->).
  destruct (insert_invoice_items _ ps _) as [[[]|e] conn'] eqn:Hitems; [|done].
  apply insert_invoice_items_Ok in Hitems as (rs & Hrs & ->).
  exists client.2, ps, tax, total, rs.
  rewrite (create_invoice_success _ _ _ _ _ _ _ Hclient Hps Htax Htotal Hfree Hrs) in Hok.
  by simplify_eq.
Qed.

Lemma invoice_no_taken_true no (t : table Invoices.row) :
  invoice_no_taken no t = true
  ↔ ∃ id i, rows t !! id = Some i ∧ Invoices.invoice_no i = no.
Proof.
  unfold invoice_no_taken. rewrite bool_decide_eq_true. apply map_Exists_lookup.
Qed.


(** The constraints of the header do detect what they guard: the insert
    raises [sqlite3.IntegrityError] on a number that is taken and on an
    amount that is NaN, and otherwise succeeds. *)
Lemma insert_invoice_Raise r conn e :
  is_Some (rows (clients conn) !! Invoices.client_id r) →
  insert_invoice r conn = Raise e →
  ∃ msg, e = Error (IntegrityError msg)
    ∧ (is_nan (Invoices.tax_amount r) = true
       ∨ is_nan (Invoices.total_amount r) = true
       ∨ invoice_no_taken (Invoices.invoice_no r) (invoices conn) = true).
Proof.
  intros [client Hclient]. unfold insert_invoice, real_not_null, sqlite_real.
  rewrite (bind_rowid_found _ _ _ Hclient). cbn [mbind result_bind].
  destruct (is_nan (Invoices.tax_amount r)); [intros [= <-]; eauto|].
  assert (∀ x : float, ∃ y, (if is_zero x then Some 0%float else Some x) = Some y)
    as Hsome by (intros x; destruct (is_zero x); eauto).
  destruct (Hsome (Invoices.tax_amount r)) as [tax ->]. cbn [mbind result_bind].
  destruct (is_nan (Invoices.total_amount r)); [intros [= <-]; eauto|].
  destruct (Hsome (Invoices.total_amount r)) as [total ->]. cbn [mbind result_bind].
  destruct (invoice_no_taken _ _); [intros [= <-]; eauto|done].
Qed.

Lemma insert_invoice_duplicate r conn :
  is_Some (rows (clients conn) !! Invoices.client_id r) →
  invoice_no_taken (Invoices.invoice_no r) (invoices conn) = true →
  ∃ msg, insert_invoice r conn = Raise (Error (IntegrityError msg)).
Proof.
  intros Hclient Htaken.
  destruct (insert_invoice r conn) as [[n conn']|e] eqn:Hins.
  - revert Hins. unfold insert_invoice.
    destruct (bind_rowid _ _); [|done]. cbn [mbind result_bind].
    destruct (real_not_null _ (Invoices.tax_amount r)); [|done]. cbn [mbind result_bind].
    destruct (real_not_null _ (Invoices.total_amount r)); [|done]. cbn [mbind result_bind].
    by rewrite Htaken.
  - destruct (insert_invoice_Raise _ _ _ Hclient Hins) as (msg & -> & _). eauto.
Qed.

(** The name [sqlite3] is not bound in the module of the routes. *)
Lemma sqlite3_not_imported :
  load_global "sqlite3" = Raise (Error (NameError "sqlite3")).
Proof. reflexivity. Qed.

(** The handler of line 107 cannot catch anything: evaluating its
    [sqlite3.IntegrityError] raises the [NameError]. *)
Lemma except_IntegrityError_NameError {A} (e : exn) :
  except_IntegrityError (A:=A) (Raise e) = Raise (Error (NameError "sqlite3")).
Proof. by destruct e as [c d|[]]. Qed.

(** C2, as the code behaves. A create request whose client and products
    exist and whose invoice_no is that of a persisted invoice leaves the
    store unchanged, but the error is a generic 500 and never the 400 of a
    duplicate number. When the quantities are within the range of a float,
    so that the request reaches the INSERT, the block raises [NameError]
    with nothing written: the handler names [sqlite3.IntegrityError] in a
    module that does not import [sqlite3], and the request ends in the 500
    "Database error: name 'sqlite3' is not defined". *)
Theorem create_invoice_duplicate_number invoice st :
  is_Some (rows (clients st) !! InvoiceCreate.client_id invoice) →
  products_exist (InvoiceCreate.items invoice) st →
  (∃ id i, rows (invoices st) !! id = Some i
           ∧ Invoices.invoice_no i = InvoiceCreate.invoice_no invoice) →
  ∃ detail,
    create_invoice invoice st = (Raise (HTTPException 500 detail), st)
    ∧ (quantities_convert (InvoiceCreate.items invoice) →
       detail = "Database error: name 'sqlite3' is not defined"
       ∧ create_invoice_block invoice st = (Raise (Error (NameError "sqlite3")), st)).
Proof.
  intros [client Hclient] Hall Hdup%invoice_no_taken_true.
  unfold create_invoice, get_db. rewrite create_invoice_block_unfold.
  rewrite (select_client_found _ _ _ Hclient).
  destruct (calculate_invoice_totals _ st) as [[[ps tax] total]|e] eqn:Hcalc.
  - destruct (insert_invoice_duplicate
                (Invoices.Row (InvoiceCreate.invoice_no invoice)
                   (InvoiceCreate.issue_date invoice) (InvoiceCreate.due_date invoice)
                   (InvoiceCreate.client_id invoice) tax total) st) as [msg ->];
      [by eauto|done|].
    eexists. split; [reflexivity|done].
  - apply calculate_invoice_totals_Raise in Hcalc
      as (before & ps & item & after & Hitems & Hps & Hfail).
    assert (is_Some (rows (products st) !! InvoiceItemCreate.product_id item))
      as [product Hproduct].
    { unfold products_exist in Hall. rewrite Hitems in Hall.
      apply Forall_app in Hall as [_ Hall]. by apply Forall_cons in Hall as [? _]. }
    destruct Hfail as [(Hnone & _)|[(Hnone & _)|(_ & Hy & ->)]]; [congruence..|].
    eexists. split; [reflexivity|].
    intros Hconv. unfold quantities_convert in Hconv. rewrite Hitems in Hconv.
    apply Forall_app in Hconv as [_ Hconv].
    apply Forall_cons in Hconv as [[y Hy'] _]. congruence.
Qed.

(** The second creation of INV-001 on the seeded store. *)
Lemma create_invoice_duplicate_number_example :
  (create_invoice Examples.inv_001 upgrade).1
  = Ok (InvoiceResponse.Make 1 "INV-001" Examples.issue Examples.due "Acme Corp" 7 77
          [ InvoiceItemResponse.Make 0 "Widget A" 2 10 20;
            InvoiceItemResponse.Make 0 "Gadget X" 1 50 50 ])
  ∧ create_invoice Examples.inv_001_again Examples.st1
    = (Raise (HTTPException 500 "Database error: name 'sqlite3' is not defined"),
       Examples.st1).
Proof.
  split; [vm_compute; reflexivity|].
  destruct (create_invoice_duplicate_number Examples.inv_001_again Examples.st1)
    as (detail & Hcreate & Hdetail).
  - vm_compute. eauto.
  - repeat constructor; vm_compute; eauto.
  - eexists 1, _. split; vm_compute; reflexivity.
  - destruct Hdetail as [-> _]; [|exact Hcreate].
    repeat constructor. eexists. vm_compute. reflexivity.
Defined.

(** C3, the claim fails: on the seeded store a request whose only line
    names the product id 2^63, which has no row, does not get the 404 that
    names it: binding the id raises [OverflowError] and the request ends in
    a 500. *)
Lemma create_invoice_wide_product_id :
  is_Some (rows (clients upgrade) !! InvoiceCreate.client_id Examples.inv_wide_product)
  ∧ InvoiceCreate.items Examples.inv_wide_product = [Examples.line (2 ^ 63) 1]
  ∧ rows (products upgrade) !! (2 ^ 63) = None
  ∧ create_invoice Examples.inv_wide_product upgrade
    = (Raise (HTTPException 500
                "Database error: Python int too large to convert to SQLite INTEGER"),
       upgrade).
Proof. split; [vm_compute; eauto|]. repeat split; vm_compute; reflexivity. Qed.

(** C3, amended. When the client exists and some line names a product id
    that is a 64-bit integer without a row in the catalog, the lines before
    it all being priced (their products exist and their quantities are
    within the range of a float), the block of [create_invoice] raises the
    404 that names that product id with no row written, and the route
    returns that 404 with the store unchanged. *)
Theorem create_invoice_product_not_found invoice st before item after :
  is_Some (rows (clients st) !! InvoiceCreate.client_id invoice) →
  InvoiceCreate.items invoice = before ++ item :: after →
  products_exist before st →
  quantities_convert before →
  rows (products st) !! InvoiceItemCreate.product_id item = None →
  in_int64 (InvoiceItemCreate.product_id item) →
  create_invoice_block invoice st
  = (Raise (HTTPException 404
              ("Product with ID " +:+ pretty (InvoiceItemCreate.product_id item)
                 +:+ " not found")), st)
  ∧ create_invoice invoice st
    = (Raise (HTTPException 404
                ("Product with ID " +:+ pretty (InvoiceItemCreate.product_id item)
                   +:+ " not found")), st).
Proof.
  intros [client Hclient] Hitems Hall Hconv Hnone Hrange.
  destruct (products_exist_priced _ _ Hall Hconv) as [ps Hps].
  assert (create_invoice_block invoice st
          = (Raise (HTTPException 404
                      ("Product with ID " +:+ pretty (InvoiceItemCreate.product_id item)
                         +:+ " not found")), st)) as Hblock.
  { rewrite create_invoice_block_unfold, (select_client_found _ _ _ Hclient), Hitems.
    rewrite (calculate_invoice_totals_line_fails before ps item after st
               (HTTPException 404
                  ("Product with ID " +:+ pretty (InvoiceItemCreate.product_id item)
                     +:+ " not found"))); [done|done|].
    left. done. }
  split; [done|]. unfold create_invoice, get_db. by rewrite Hblock.
Qed.

Lemma create_invoice_product_not_found_example :
  create_invoice_block Examples.inv_missing_product upgrade
  = (Raise (HTTPException 404 "Product with ID 99 not found"), upgrade)
  ∧ create_invoice Examples.inv_missing_product upgrade
    = (Raise (HTTPException 404 "Product with ID 99 not found"), upgrade).
Proof.
  apply (create_invoice_product_not_found Examples.inv_missing_product upgrade
           [Examples.line 1 2] (Examples.line 99 1) [Examples.line 3 1]).
  - vm_compute. eauto.
  - reflexivity.
  - repeat constructor; vm_compute; eauto.
  - repeat constructor. eexists. vm_compute. reflexivity.
  - vm_compute. reflexivity.
  - unfold in_int64. cbn. lia.
Defined.

(** C5, the claim fails: on the seeded store a request whose client_id is
    2^63, which has no row in [clients], does not get the 404 "Client not
    found": binding the id raises [OverflowError] and the request ends in a
    500. *)
Lemma create_invoice_wide_client_id :
  rows (clients upgrade) !! InvoiceCreate.client_id Examples.inv_wide_client = None
  ∧ create_invoice Examples.inv_wide_client upgrade
    = (Raise (HTTPException 500
                "Database error: Python int too large to convert to SQLite INTEGER"),
       upgrade).
Proof. split; vm_compute; reflexivity. Qed.

(** C5, amended. When the client_id of the request is a 64-bit integer
    without a row in [clients], the block of [create_invoice] raises the 404
    "Client not found" with no row written, whatever the lines and the
    catalog are, and the route returns that 404 with the store unchanged. *)
Theorem create_invoice_client_not_found invoice st :
  rows (clients st) !! InvoiceCreate.client_id invoice = None →
  in_int64 (InvoiceCreate.client_id invoice) →
  create_invoice_block invoice st = (Raise (HTTPException 404 "Client not found"), st)
  ∧ create_invoice invoice st = (Raise (HTTPException 404 "Client not found"), st).
Proof.
  intros Hclient Hrange.
  assert (create_invoice_block invoice st
          = (Raise (HTTPException 404 "Client not found"), st)) as Hblock.
  { rewrite create_invoice_block_unfold. unfold select_client.
    rewrite (bind_rowid_absent _ _ Hclient), (bind_int_in_range _ Hrange). cbn.
    by rewrite Hclient. }
  split; [done|]. unfold create_invoice, get_db. by rewrite Hblock.
Qed.

Lemma create_invoice_client_not_found_example :
  create_invoice_block Examples.inv_missing_client upgrade
  = (Raise (HTTPException 404 "Client not found"), upgrade)
  ∧ create_invoice Examples.inv_missing_client upgrade
    = (Raise (HTTPException 404 "Client not found"), upgrade).
Proof.
  apply create_invoice_client_not_found.
  - vm_compute. reflexivity.
  - unfold in_int64. cbn. lia.
Defined.




Lemma Forall2_zip_seqZ {X Y} (P : X → Y → Prop) (Q : X → Z * Y → Prop) l1 l2 n :
  Forall2 P l1 l2 →
  (∀ x y k, P x y → n ≤ k < n + Z.of_nat (length l2) →
            (k, y) ∈ zip (seqZ n (Z.of_nat (length l2))) l2 → Q x (k, y)) →
  Forall2 Q l1 (zip (seqZ n (Z.of_nat (length l2))) l2).
Proof.
  intros HP. revert n. induction HP as [|x y l1 l2 Hxy _ IH]; intros n; [constructor|].
  cbn [length]. rewrite seqZ_cons by lia. cbn [zip zip_with].
  replace (Z.pred (Z.of_nat (S (length l2)))) with (Z.of_nat (length l2)) by lia.
  intros HQ. constructor.
  - apply HQ; [done|lia|]. apply list_elem_of_here.
  - apply IH. intros x' y' k Hxy' Hk Hin. apply HQ; [done|lia|].
    by apply list_elem_of_further.
Qed.


Lemma sqlite_real_Some x y : sqlite_real x = Some y → is_nan x = false.
Proof. unfold sqlite_real. by destruct (is_nan x). Qed.






(** ** Deletion *)

Lemma delete_invoice_block_unfold invoice_id st :
  delete_invoice_block invoice_id st
  = match rows (invoices st) !! invoice_id with
    | None =>
        if decide (in_int64 invoice_id)
        then (Raise (HTTPException 404 "Invoice not found"), st)
        else (Raise (Error (OverflowError
                              "Python int too large to convert to SQLite INTEGER")), st)
    | Some _ =>
        (Ok (),
         Db (clients st) (products st) (delete_row invoice_id (invoices st))
            (delete_where (λ ii, InvoiceItems.invoice_id ii = invoice_id)
               (invoice_items st)))
    end.
Proof.
  unfold delete_invoice_block, mbind, block_bind, read, raise, write, bind_rowid, bind_int.
  destruct (rows (invoices st) !! invoice_id) as [i|]; [done|].
  by case_decide.
Qed.

Lemma delete_invoice_absent invoice_id st :
  rows (invoices st) !! invoice_id = None →
  in_int64 invoice_id →
  delete_invoice invoice_id st = (Raise (HTTPException 404 "Invoice not found"), st).
Proof.
  intros Hi Hrange. unfold delete_invoice, get_db.
  by rewrite delete_invoice_block_unfold, Hi, decide_True.
Qed.

Lemma delete_invoice_present invoice_id st i :
  rows (invoices st) !! invoice_id = Some i →
  delete_invoice invoice_id st
  = (Ok (),
     Db (clients st) (products st) (delete_row invoice_id (invoices st))
        (delete_where (λ ii, InvoiceItems.invoice_id ii = invoice_id)
           (invoice_items st))).
Proof.
  intros Hi. unfold delete_invoice, get_db. by rewrite delete_invoice_block_unfold, Hi.
Qed.

Lemma delete_invoice_Ok invoice_id st u st' :
  delete_invoice invoice_id st = (Ok u, st') →
  is_Some (rows (invoices st) !! invoice_id)
  ∧ st' = Db (clients st) (products st) (delete_row invoice_id (invoices st))
            (delete_where (λ ii, InvoiceItems.invoice_id ii = invoice_id)
               (invoice_items st)).
Proof.
  unfold delete_invoice, get_db. rewrite delete_invoice_block_unfold.
  destruct (rows (invoices st) !! invoice_id) as [i|]; [|by case_decide].
  cbn. intros [= _ <-]. eauto.
Qed.

Lemma get_invoice_block_unfold invoice_id st :
  get_invoice_block invoice_id st
  = match rows (invoices st) !! invoice_id with
    | None =>
        if decide (in_int64 invoice_id)
        then (Raise (HTTPException 404 "Invoice not found"), st)
        else (Raise (Error (OverflowError
                              "Python int too large to convert to SQLite INTEGER")), st)
    | Some i =>
        match rows (clients st) !! Invoices.client_id i with
        | None => (Raise (HTTPException 404 "Invoice not found"), st)
        | Some c =>
            (Ok (InvoiceResponse.Make invoice_id (Invoices.invoice_no i)
                   (Invoices.issue_date i) (Invoices.due_date i) (Clients.name c)
                   (Invoices.tax_amount i) (Invoices.total_amount i)
                   (detail_item <$> select_invoice_items invoice_id st)), st)
        end
    end.
Proof.
  unfold get_invoice_block, mbind at 1, block_bind, read, raise, select_invoice,
    bind_rowid, bind_int.
  destruct (rows (invoices st) !! invoice_id) as [i|]; cbn; [|by case_decide].
  by destruct (rows (clients st) !! Invoices.client_id i).
Qed.

Lemma get_invoice_unfold invoice_id st :
  get_invoice invoice_id st
  = match rows (invoices st) !! invoice_id with
    | None =>
        if decide (in_int64 invoice_id)
        then (Raise (HTTPException 404 "Invoice not found"), st)
        else (Raise (HTTPException 500
                       "Database error: Python int too large to convert to SQLite INTEGER"),
              st)
    | Some i =>
        match rows (clients st) !! Invoices.client_id i with
        | None => (Raise (HTTPException 404 "Invoice not found"), st)
        | Some c =>
            (Ok (InvoiceResponse.Make invoice_id (Invoices.invoice_no i)
                   (Invoices.issue_date i) (Invoices.due_date i) (Clients.name c)
                   (Invoices.tax_amount i) (Invoices.total_amount i)
                   (detail_item <$> select_invoice_items invoice_id st)), st)
        end
    end.
Proof.
  unfold get_invoice, get_db. rewrite get_invoice_block_unfold.
  destruct (rows (invoices st) !! invoice_id) as [i|]; [|by case_decide].
  by destruct (rows (clients st) !! Invoices.client_id i).
Qed.

(** C6, the claim fails: on the seeded store, which holds no invoice,
    [delete_invoice] on the id 2^63 does not return the 404: binding the id
    raises [OverflowError] and the request ends in a 500. *)
Lemma delete_invoice_wide_id :
  rows (invoices upgrade) !! (2 ^ 63) = None
  ∧ delete_invoice (2 ^ 63) upgrade
    = (Raise (HTTPException 500
                "Database error: Python int too large to convert to SQLite INTEGER"),
       upgrade).
Proof. split; vm_compute; reflexivity. Qed.

(** C6, amended. For an id that is a 64-bit integer: [delete_invoice] on
    an id without an invoice row raises the 404 "Invoice not found" with
    nothing written and changes nothing. On the id of a persisted invoice its
    block deletes the item rows of that invoice and then its header row, and
    the route succeeds: the store it commits has lost exactly those rows,
    clients and products being untouched; [get_invoice] on that id then
    raises the 404 "Invoice not found". *)
Theorem delete_invoice_correct invoice_id st :
  in_int64 invoice_id →
  match rows (invoices st) !! invoice_id with
  | None =>
      delete_invoice_block invoice_id st
      = (Raise (HTTPException 404 "Invoice not found"), st)
      ∧ delete_invoice invoice_id st
        = (Raise (HTTPException 404 "Invoice not found"), st)
  | Some _ =>
      ∃ st',
        delete_invoice_block invoice_id st = (Ok (), st')
        ∧ delete_invoice invoice_id st = (Ok (), st')
        ∧ (∀ id ii, rows (invoice_items st') !! id = Some ii
             ↔ rows (invoice_items st) !! id = Some ii
               ∧ InvoiceItems.invoice_id ii ≠ invoice_id)
        ∧ rows (invoices st') = delete invoice_id (rows (invoices st))
        ∧ clients st' = clients st
        ∧ products st' = products st
        ∧ get_invoice invoice_id st'
          = (Raise (HTTPException 404 "Invoice not found"), st')
  end.
Proof.
  intros Hrange. unfold delete_invoice, get_db. rewrite delete_invoice_block_unfold.
  destruct (rows (invoices st) !! invoice_id) as [i|] eqn:Hi;
    [|by rewrite decide_True].
  eexists. split; [reflexivity|]. split; [reflexivity|].
  cbn [invoice_items invoices clients products delete_where delete_row rows].
  split; [|split; [done|split; [done|split; [done|]]]].
  - intros id ii. by rewrite map_lookup_filter_Some.
  - rewrite get_invoice_unfold. cbn [invoices delete_row rows].
    by rewrite lookup_delete_eq, decide_True.
Qed.

(** Deleting INV-001 on the store that holds it alone. *)
Lemma delete_invoice_correct_example :
  ∃ st',
    delete_invoice 1 Examples.st1 = (Ok (), st')
    ∧ rows (invoices st') = delete 1 (rows (invoices Examples.st1))
    ∧ get_invoice 1 st' = (Raise (HTTPException 404 "Invoice not found"), st').
Proof.
  assert (in_int64 1) as Hrange by (unfold in_int64; lia).
  pose proof (delete_invoice_correct 1 Examples.st1 Hrange) as Hc.
  destruct (rows (invoices Examples.st1) !! 1) eqn:Hi; [|vm_compute in Hi; discriminate].
  destruct Hc as (st' & _ & Hdel & _ & Hrows & _ & _ & Hget). eauto.
Defined.

(** Deleting on the store that holds INV-001 alone: an unknown id changes
    nothing; the id of INV-001 leaves no invoice and no item row. *)
Lemma delete_invoice_example :
  delete_invoice 7 Examples.st1
  = (Raise (HTTPException 404 "Invoice not found"), Examples.st1)
  ∧ delete_invoice 1 Examples.st1
    = (Ok (), Db (clients upgrade) (products upgrade) (Table ∅ 1) (Table ∅ 2))
  ∧ (get_invoice 1 (delete_invoice 1 Examples.st1).2).1
    = Raise (HTTPException 404 "Invoice not found").
Proof. repeat split; vm_compute; reflexivity. Qed.

(** ** Listing *)

Lemma rowids_strict {A} (t : table A) : StronglySorted Z.lt (rowids t).
Proof.
  pose proof (rowids_sorted t) as Hs. pose proof (rowids_NoDup t) as Hn.
  induction Hs as [|k l _ IH Hall]; [constructor|].
  apply NoDup_cons in Hn as [Hk Hn]. constructor; [by apply IH|].
  apply Forall_forall. intros k' Hk'.
  rewrite Forall_forall in Hall. specialize (Hall _ Hk').
  assert (k ≠ k') by (by intros ->). lia.
Qed.

Lemma reverse_descending (l : list Z) :
  StronglySorted Z.lt l → StronglySorted Z.gt (reverse l).
Proof.
  induction 1 as [|k l _ IH Hall]; [constructor|].
  rewrite reverse_cons. apply StronglySorted_app_2; [|done|repeat constructor].
  intros k1 k2 Hk1 ->%list_elem_of_singleton. rewrite elem_of_reverse in Hk1.
  rewrite Forall_forall in Hall. specialize (Hall _ Hk1). lia.
Qed.

Lemma length_scan {A} (t : table A) : length (scan t) = size (rows t).
Proof.
  rewrite <-(length_fmap fst), scan_rowids. unfold rowids.
  by rewrite merge_sort_Permutation, length_fmap, length_map_to_list.
Qed.

Lemma scan_fmap {A B} (g : A → B) (t : table A) s :
  scan (Table (g <$> rows t) s) = prod_map id g <$> scan t.
Proof.
  unfold scan, rowids. cbn [rows].
  rewrite map_to_list_fmap, <-list_fmap_compose.
  replace (fst ∘ prod_map id g) with (@fst Z A) by done.
  induction (merge_sort Z.le (map_to_list (rows t)).*1) as [|k l IH]; [done|].
  cbn [omap list_omap]. rewrite lookup_fmap, IH.
  by destruct (rows t !! k).
Qed.

Lemma omap_total {X Y} (f : X → option Y) l :
  Forall (λ x, is_Some (f x)) l → Forall2 (λ x y, f x = Some y) l (omap f l).
Proof.
  induction 1 as [|x l [y Hy] _ IH]; [constructor|].
  cbn. rewrite Hy. by constructor.
Qed.

Lemma elem_of_select_invoices st row :
  row ∈ select_invoices st
  ↔ ∃ c, rows (invoices st) !! row.1.1 = Some row.1.2
         ∧ rows (clients st) !! Invoices.client_id row.1.2 = Some c
         ∧ row.2 = Clients.name c.
Proof.
  unfold select_invoices. rewrite list_elem_of_omap. split.
  - intros ([id i] & Hin & Hrow). rewrite elem_of_reverse, elem_of_scan in Hin.
    cbn in Hrow. destruct (rows (clients st) !! Invoices.client_id i) as [c|] eqn:Hc;
      simplify_eq/=. eauto.
  - destruct row as [[id i] name]. cbn. intros (c & Hi & Hc & ->).
    exists (id, i). split; [by rewrite elem_of_reverse, elem_of_scan|].
    cbn. by rewrite Hc.
Qed.

Lemma select_invoices_ids st :
  invoices_reference_clients st →
  (λ row, row.1.1) <$> select_invoices st = reverse (rowids (invoices st)).
Proof.
  intros Hfk. rewrite <-scan_rowids, <-fmap_reverse. unfold select_invoices.
  assert (Forall (λ i : Z * Invoices.row, is_Some (rows (invoices st) !! i.1)
                      ∧ rows (invoices st) !! i.1 = Some i.2)
            (reverse (scan (invoices st)))) as Hall.
  { apply Forall_forall. intros [id i] Hin.
    rewrite elem_of_reverse, elem_of_scan in Hin. eauto. }
  induction Hall as [|[id i] l [_ Hi] _ IH]; [done|].
  cbn in *. destruct (Hfk _ _ Hi) as [c Hc]. rewrite Hc. cbn. by rewrite IH.
Qed.

Lemma select_invoices_frame tax items st :
  list_row <$> select_invoices (with_tax tax (with_invoice_items items st))
  = list_row <$> select_invoices st.
Proof.
  unfold select_invoices, with_tax. cbn [invoices clients with_invoices with_invoice_items].
  rewrite scan_fmap, <-fmap_reverse.
  induction (reverse (scan (invoices st))) as [|[id i] l IH]; [done|].
  cbn. destruct (rows (clients st) !! Invoices.client_id i) as [c|]; cbn; [|done].
  by rewrite <-IH.
Qed.

(** C7, the claim fails: in the store that holds INV-001 after the row of
    its client has been deleted, [list_invoices] returns no summary for the
    one persisted invoice. *)
Lemma list_invoices_client_gone :
  scan (invoices Scenarios.st1_client_gone)
  = [ (1, Invoices.Row "INV-001" Examples.issue Examples.due 1 7 77) ]
  ∧ list_invoices Scenarios.st1_client_gone = (Ok [], Scenarios.st1_client_gone).
Proof. split; vm_compute; reflexivity. Qed.

(** C7, amended. In a store whose invoices all reference an existing
    client, [list_invoices] returns one summary per
    invoice row, in strictly descending order of id; each summary carries the
    id, number, dates and total_amount of its invoice row and the name of its
    client; and the list is the same whatever the invoice_items table and the
    tax amounts of the invoice rows are: a summary holds neither line items
    nor the tax amount. *)
Theorem list_invoices_correct st :
  invoices_reference_clients st →
  ∃ l, list_invoices st = (Ok l, st)
    ∧ length l = size (rows (invoices st))
    ∧ StronglySorted Z.gt (InvoiceListResponse.id <$> l)
    ∧ (∀ id, id ∈ InvoiceListResponse.id <$> l ↔ is_Some (rows (invoices st) !! id))
    ∧ (∀ s, s ∈ l ↔
         ∃ i c, rows (invoices st) !! InvoiceListResponse.id s = Some i
           ∧ rows (clients st) !! Invoices.client_id i = Some c
           ∧ s = InvoiceListResponse.Make (InvoiceListResponse.id s)
                   (Invoices.invoice_no i) (Invoices.issue_date i)
                   (Invoices.due_date i) (Clients.name c) (Invoices.total_amount i))
    ∧ (∀ tax items,
         (list_invoices (with_tax tax (with_invoice_items items st))).1 = Ok l).
Proof.
  intros Hfk. exists (list_row <$> select_invoices st).
  assert (InvoiceListResponse.id <$> (list_row <$> select_invoices st)
          = reverse (rowids (invoices st))) as Hids.
  { by rewrite <-list_fmap_compose, <-select_invoices_ids. }
  split; [done|]. split; [|split; [|split; [|split]]].
  - rewrite <-(length_fmap InvoiceListResponse.id), Hids, length_reverse.
    by rewrite <-scan_rowids, length_fmap, length_scan.
  - rewrite Hids. apply reverse_descending, rowids_strict.
  - intros id. by rewrite Hids, elem_of_reverse, elem_of_rowids.
  - intros s. rewrite list_elem_of_fmap. split.
    + intros (row & -> & (c & Hi & Hc & Hname)%elem_of_select_invoices).
      exists row.1.2, c. unfold list_row. cbn. by rewrite Hname.
    + intros (i & c & Hi & Hc & Hs).
      exists (InvoiceListResponse.id s, i, Clients.name c). split; [done|].
      apply elem_of_select_invoices. eauto.
  - intros tax items. unfold list_invoices, get_db, read, database_error. cbn [fst].
    by rewrite select_invoices_frame.
Qed.

Lemma list_invoices_example :
  ∃ l, list_invoices Examples.st2 = (Ok l, Examples.st2)
    ∧ length l = size (rows (invoices Examples.st2))
    ∧ StronglySorted Z.gt (InvoiceListResponse.id <$> l)
    ∧ (∀ id, id ∈ InvoiceListResponse.id <$> l
         ↔ is_Some (rows (invoices Examples.st2) !! id))
    ∧ (∀ s, s ∈ l ↔
         ∃ i c, rows (invoices Examples.st2) !! InvoiceListResponse.id s = Some i
           ∧ rows (clients Examples.st2) !! Invoices.client_id i = Some c
           ∧ s = InvoiceListResponse.Make (InvoiceListResponse.id s)
                   (Invoices.invoice_no i) (Invoices.issue_date i)
                   (Invoices.due_date i) (Clients.name c) (Invoices.total_amount i))
    ∧ (∀ tax items,
         (list_invoices (with_tax tax (with_invoice_items items Examples.st2))).1 = Ok l).
Proof.
  apply list_invoices_correct.
  intros id i Hi.
  assert ((id, i) ∈ scan (invoices Examples.st2)) as Hin by (by apply elem_of_scan).
  vm_compute in Hin.
  apply elem_of_cons in Hin as [Hin|Hin]; [injection Hin as -> ->; vm_compute; eauto|].
  apply elem_of_cons in Hin as [Hin|Hin]; [injection Hin as -> ->; vm_compute; eauto|].
  by apply elem_of_nil in Hin.
Defined.

(** The list of the store with INV-001 and INV-002: the newer first. *)
Lemma list_invoices_two :
  (list_invoices Examples.st2).1
  = Ok [ InvoiceListResponse.Make 2 "INV-002" Examples.issue Examples.due "Globex Inc" 495;
         InvoiceListResponse.Make 1 "INV-001" Examples.issue Examples.due "Acme Corp" 77 ].
Proof. vm_compute. reflexivity. Qed.

(** ** Reading an invoice back *)

Lemma select_invoice_items_update_price invoice_id product_id price st :
  select_invoice_items invoice_id (update_price product_id price st)
  = select_invoice_items invoice_id st.
Proof.
  unfold select_invoice_items, update_price.
  cbn [invoice_items products with_products rows].
  apply list_omap_ext, Forall_Forall2_diag, Forall_forall. intros [id ii] _.
  cbn [fst snd]. case_decide; [|done].
  rewrite lookup_alter. case_decide as Hpid; [|done].
  rewrite <-Hpid. by destruct (rows (products st) !! product_id).
Qed.

Lemma select_invoice_items_delete_product invoice_id product_id st :
  select_invoice_items invoice_id (delete_product product_id st)
  = filter (λ item, InvoiceItems.product_id item.2 ≠ product_id)
      (select_invoice_items invoice_id st).
Proof.
  unfold select_invoice_items, delete_product.
  cbn [invoice_items products with_products delete_row rows].
  induction (scan (invoice_items st)) as [|[id ii] l IH]; [done|].
  cbn [omap list_omap fst snd]. case_decide; [|done].
  rewrite lookup_delete. case_decide as Hpid.
  - cbn. rewrite IH.
    destruct (rows (products st) !! InvoiceItems.product_id ii) as [p|]; cbn; [|done].
    case_decide; [congruence|done].
  - destruct (rows (products st) !! InvoiceItems.product_id ii) as [p|]; cbn; [|done].
    case_decide; [|congruence]. f_equal. apply IH.
Qed.


(** C9, the claim fails: after the product row of Widget A is deleted,
    [get_invoice] on INV-001 returns one item where it returned two. *)
Lemma get_invoice_after_product_deleted :
  (get_invoice 1 Examples.st1).1
  = Ok (InvoiceResponse.Make 1 "INV-001" Examples.issue Examples.due "Acme Corp" 7 77
          [ InvoiceItemResponse.Make 1 "Widget A" 2 10 20;
            InvoiceItemResponse.Make 2 "Gadget X" 1 50 50 ])
  ∧ (get_invoice 1 (delete_product 1 Examples.st1)).1
    = Ok (InvoiceResponse.Make 1 "INV-001" Examples.issue Examples.due "Acme Corp" 7 77
            [ InvoiceItemResponse.Make 2 "Gadget X" 1 50 50 ]).
Proof. split; vm_compute; reflexivity. Qed.

(** C9, amended. A later price update in the products table leaves what
    [get_invoice] returns unchanged. On success the tax_amount and
    total_amount returned are those of the stored invoice row, and every
    item returned carries the quantity, unit_price and line_total of a stored
    invoice_items row of that invoice. After a product row is deleted,
    [get_invoice] returns the same header, tax_amount and total_amount
    included, and of the items only those whose product is not the deleted
    one. *)
Theorem get_invoice_catalog_changes invoice_id st product_id price :
  (get_invoice invoice_id (update_price product_id price st)).1
  = (get_invoice invoice_id st).1
  ∧ match (get_invoice invoice_id st).1 with
    | Ok r =>
        (∃ i, rows (invoices st) !! invoice_id = Some i
           ∧ InvoiceResponse.tax_amount r = Invoices.tax_amount i
           ∧ InvoiceResponse.total_amount r = Invoices.total_amount i)
        ∧ Forall (λ item,
            ∃ ii, rows (invoice_items st) !! InvoiceItemResponse.id item = Some ii
              ∧ InvoiceItems.invoice_id ii = invoice_id
              ∧ InvoiceItemResponse.quantity item = InvoiceItems.quantity ii
              ∧ InvoiceItemResponse.unit_price item = InvoiceItems.unit_price ii
              ∧ InvoiceItemResponse.line_total item = InvoiceItems.line_total ii)
            (InvoiceResponse.items r)
        ∧ (get_invoice invoice_id (delete_product product_id st)).1
          = Ok (InvoiceResponse.Make (InvoiceResponse.id r)
                  (InvoiceResponse.invoice_no r) (InvoiceResponse.issue_date r)
                  (InvoiceResponse.due_date r) (InvoiceResponse.client_name r)
                  (InvoiceResponse.tax_amount r) (InvoiceResponse.total_amount r)
                  (detail_item <$>
                     filter (λ item, InvoiceItems.product_id item.2 ≠ product_id)
                       (select_invoice_items invoice_id st)))
    | Raise e =>
        (get_invoice invoice_id (delete_product product_id st)).1 = Raise e
    end.
Proof.
  rewrite !get_invoice_unfold.
  rewrite select_invoice_items_update_price, select_invoice_items_delete_product.
  cbn [invoices clients update_price delete_product with_products].
  destruct (rows (invoices st) !! invoice_id) as [i|] eqn:Hi; [|by case_decide].
  destruct (rows (clients st) !! Invoices.client_id i) as [c|] eqn:Hc; cbn; [|done].
  split; [done|]. split; [by eauto|]. split; [|done].
  apply Forall_fmap, Forall_forall. intros [[id name] ii].
  unfold select_invoice_items. rewrite list_elem_of_omap.
  intros ([id' ii'] & Hin%elem_of_scan & Hsel). cbn in Hsel.
  case_decide as Hid; [|done].
  destruct (rows (products st) !! InvoiceItems.product_id ii') as [p|]; simplify_eq/=.
  eauto 10.
Qed.

Lemma omap_none {X Y} (f : X → option Y) l :
  Forall (λ x, f x = None) l → omap f l = [].
Proof. induction 1 as [|x l Hx _ IH]; [done|]. cbn. by rewrite Hx. Qed.

Lemma Forall2_omap {X Y W} (R : X → Y → Prop) (S : X → W → Prop) (f : Y → option W) l k :
  Forall2 R l k →
  (∀ x y, R x y → ∃ w, f y = Some w ∧ S x w) →
  Forall2 S l (omap f k).
Proof.
  intros HR Hf. induction HR as [|x y l k Hxy _ IH]; [constructor|].
  destruct (Hf x y Hxy) as (w & Hw & HS). cbn. rewrite Hw. by constructor.
Qed.

(** The item rows of a created invoice as [get_invoice] selects them: after
    the rows that held its id before, one row per priced line, in line
    order, with a new rowid and the name of the line's product. *)
Lemma select_invoice_items_created invoice st ps tax total rs :
  Forall2 (priced st) (InvoiceCreate.items invoice) ps →
  Forall2 (persisted (next_rowid (invoices st))) ps rs →
  ∃ news,
    select_invoice_items (next_rowid (invoices st)) (created_store invoice tax total rs st)
    = select_invoice_items (next_rowid (invoices st)) st ++ news
    ∧ Forall2 (λ p new,
         persisted (next_rowid (invoices st)) p new.2
         ∧ new.1.2 = ProcessedItem.product_name p
         ∧ next_rowid (invoice_items st) ≤ new.1.1
         ∧ rows (invoice_items (created_store invoice tax total rs st)) !! new.1.1
           = Some new.2) ps news.
Proof.
  intros Hps Hrs. unfold select_invoice_items at 1.
  assert (scan (invoice_items (created_store invoice tax total rs st))
          = scan (invoice_items st)
            ++ zip (seqZ (next_rowid (invoice_items st)) (Z.of_nat (length rs))) rs)
    as Hscan by (unfold created_store; cbn [invoice_items];
                 exact (proj1 (scan_executemany rs (invoice_items st)))).
  rewrite Hscan, omap_app. eexists. split; [reflexivity|].
  eapply Forall2_omap.
  - apply (Forall2_zip_seqZ (λ p row, p ∈ ps ∧ persisted (next_rowid (invoices st)) p row)
             (λ p new, p ∈ ps ∧ persisted (next_rowid (invoices st)) p new.2
                       ∧ next_rowid (invoice_items st) ≤ new.1
                       ∧ new ∈ scan (invoice_items (created_store invoice tax total rs st)))).
    + clear -Hrs. apply Forall2_same_length_lookup. split; [by eapply Forall2_length|].
      intros k p row Hp Hrow. split; [by eapply list_elem_of_lookup_2|].
      by eapply Forall2_lookup_lr.
    + intros p row k [Hp Hrow] Hk Hin. cbn [fst snd].
      split; [done|]. split; [done|]. split; [lia|]. rewrite Hscan.
      apply elem_of_app. by right.
  - intros p [k row] (Hp & Hrow & Hk & Hin). cbn [fst snd] in *.
    destruct Hrow as (Hq & Hu & Hl & Hinv & Hpid & Hqty).
    destruct (priced_elem _ _ _ _ Hps Hp) as (product & y & Hproduct & _ & Hname & _).
    eexists. rewrite decide_True by done.
    unfold created_store at 1. cbn [products]. rewrite Hpid, Hproduct.
    cbn [fmap option_fmap option_map]. split; [reflexivity|]. cbn [fst snd].
    split; [done|]. split; [done|]. split; [done|]. by apply elem_of_scan.
Qed.

Lemma select_invoice_items_no_orphan invoice_id st :
  items_reference_invoices st →
  rows (invoices st) !! invoice_id = None →
  select_invoice_items invoice_id st = [].
Proof.
  intros Hfk Hnone. unfold select_invoice_items. apply omap_none, Forall_forall.
  intros [id ii] Hin%elem_of_scan. cbn [snd].
  case_decide as Hid; [|done]. destruct (Hfk _ _ Hin) as [i Hi]. congruence.
Qed.

Lemma get_invoice_created invoice st client tax total rs :
  rows (clients st) !! InvoiceCreate.client_id invoice = Some client →
  get_invoice (next_rowid (invoices st)) (created_store invoice tax total rs st)
  = (Ok (InvoiceResponse.Make (next_rowid (invoices st))
           (InvoiceCreate.invoice_no invoice) (InvoiceCreate.issue_date invoice)
           (InvoiceCreate.due_date invoice) (Clients.name client) tax total
           (detail_item <$>
              select_invoice_items (next_rowid (invoices st))
                (created_store invoice tax total rs st))),
     created_store invoice tax total rs st).
Proof.
  intros Hclient. rewrite get_invoice_unfold.
  unfold created_store at 1 2. cbn [invoices clients insert_row snd rows].
  rewrite lookup_insert_eq. cbn [created_row Invoices.client_id]. by rewrite Hclient.
Qed.

(** C10. After a successful [create_invoice] every item of the returned
    detail has id 0. [get_invoice] on the new invoice returns the same
    number, dates and client name, the tax and total as SQLite stores them,
    and items that all carry the rowid of a stored item row of the invoice:
    first those of the item rows that already held the new id (none when the
    item rows of the store all reference an existing invoice), then one per
    item of the create response, in the same order, with the same product
    name and quantity, the unit_price and line_total as SQLite stores them,
    and as id a new rowid of the invoice_items table, at least 1, hence
    different from the 0 of the create response. *)
Theorem create_invoice_item_ids invoice st r st' :
  create_invoice invoice st = (Ok r, st') →
  Forall (λ item, InvoiceItemResponse.id item = 0) (InvoiceResponse.items r)
  ∧ ∃ g news,
      get_invoice (InvoiceResponse.id r) st' = (Ok g, st')
      ∧ InvoiceResponse.id g = InvoiceResponse.id r
      ∧ InvoiceResponse.invoice_no g = InvoiceResponse.invoice_no r
      ∧ InvoiceResponse.issue_date g = InvoiceResponse.issue_date r
      ∧ InvoiceResponse.due_date g = InvoiceResponse.due_date r
      ∧ InvoiceResponse.client_name g = InvoiceResponse.client_name r
      ∧ sqlite_real (InvoiceResponse.tax_amount r) = Some (InvoiceResponse.tax_amount g)
      ∧ sqlite_real (InvoiceResponse.total_amount r)
        = Some (InvoiceResponse.total_amount g)
      ∧ Forall (λ read,
           ∃ ii, rows (invoice_items st') !! InvoiceItemResponse.id read = Some ii
             ∧ InvoiceItems.invoice_id ii = InvoiceResponse.id r)
          (InvoiceResponse.items g)
      ∧ InvoiceResponse.items g
        = (detail_item <$> select_invoice_items (InvoiceResponse.id r) st) ++ news
      ∧ (items_reference_invoices st → InvoiceResponse.items g = news)
      ∧ Forall2 (λ created read,
           InvoiceItemResponse.id created = 0
           ∧ 1 ≤ InvoiceItemResponse.id read
           ∧ InvoiceItemResponse.id read ≠ InvoiceItemResponse.id created
           ∧ rows (invoice_items st) !! InvoiceItemResponse.id read = None
           ∧ InvoiceItemResponse.product_name read
             = InvoiceItemResponse.product_name created
           ∧ InvoiceItemResponse.quantity read = InvoiceItemResponse.quantity created
           ∧ sqlite_real (InvoiceItemResponse.unit_price created)
             = Some (InvoiceItemResponse.unit_price read)
           ∧ sqlite_real (InvoiceItemResponse.line_total created)
             = Some (InvoiceItemResponse.line_total read))
          (InvoiceResponse.items r) news.
Proof.
  intros (client & ps & tax & total & rs & Hclient & Hps & Htax & Htotal & Hfree & Hrs
          & -> & ->)%create_invoice_Ok.
  split.
  { unfold created_response. cbn [InvoiceResponse.items].
    apply Forall_fmap, Forall_forall. by intros p _. }
  unfold created_response at 1. cbn [InvoiceResponse.id].
  rewrite (get_invoice_created _ _ _ tax total rs Hclient).
  destruct (select_invoice_items_created invoice st ps tax total rs Hps Hrs)
    as (news & Hsel & Hnews).
  eexists _, (detail_item <$> news). split; [reflexivity|].
  unfold created_response.
  cbn [InvoiceResponse.id InvoiceResponse.invoice_no InvoiceResponse.issue_date
       InvoiceResponse.due_date InvoiceResponse.client_name InvoiceResponse.tax_amount
       InvoiceResponse.total_amount InvoiceResponse.items].
  do 7 (split; [done|]).
  split; [|split; [|split]].
  - apply Forall_fmap, Forall_forall. intros [[id name] ii].
    unfold select_invoice_items. rewrite list_elem_of_omap.
    intros ([id' ii'] & Hin%elem_of_scan & Hsel'). cbn in Hsel'.
    case_decide as Hid; [|done].
    destruct (rows (products _) !! InvoiceItems.product_id ii') as [p|]; simplify_eq/=.
    eauto.
  - by rewrite Hsel, fmap_app.
  - intros Hfk. rewrite Hsel, fmap_app.
    by rewrite (select_invoice_items_no_orphan _ _ Hfk (next_rowid_fresh _)).
  - apply Forall2_fmap. eapply Forall2_impl; [exact Hnews|].
    intros p [[k name] row] ((Hq & Hu & Hl & Hinv & Hpid & Hqty) & Hname & Hk & Hrow).
    cbn in *. pose proof (next_rowid_pos (invoice_items st)).
    repeat split; try done; try lia.
    destruct (rows (invoice_items st) !! k) as [ii|] eqn:Hii; [|done].
    apply next_rowid_above in Hii. lia.
Qed.

Lemma create_invoice_item_ids_example :
  Forall (λ item, InvoiceItemResponse.id item = 0)
    (InvoiceResponse.items (Examples.r_001))
  ∧ ∃ g news,
      get_invoice 1 Examples.st1 = (Ok g, Examples.st1)
      ∧ InvoiceResponse.items g = news
      ∧ Forall2 (λ created read,
           InvoiceItemResponse.id created = 0
           ∧ 1 ≤ InvoiceItemResponse.id read
           ∧ InvoiceItemResponse.id read ≠ InvoiceItemResponse.id created)
          (InvoiceResponse.items (Examples.r_001)) news.
Proof.
  destruct (create_invoice_item_ids Examples.inv_001 upgrade Examples.r_001 Examples.st1)
    as (Hzero & g & news & Hget & _ & _ & _ & _ & _ & _ & _ & _ & _ & Hfk & Hnews).
  { vm_compute. reflexivity. }
  split; [exact Hzero|]. exists g, news. split; [exact Hget|]. split.
  - apply Hfk. intros id ii. vm_compute. discriminate.
  - eapply Forall2_impl; [exact Hnews|]. intros created read (H0 & H1 & Hne & _).
    by repeat split.
Defined.

(** The detail of INV-001 as created and as read back. *)
Lemma create_invoice_item_ids_inv_001 :
  (create_invoice Examples.inv_001 upgrade).1 = Ok Examples.r_001
  ∧ (get_invoice 1 Examples.st1).1
    = Ok (InvoiceResponse.Make 1 "INV-001" Examples.issue Examples.due "Acme Corp" 7 77
            [ InvoiceItemResponse.Make 1 "Widget A" 2 10 20;
              InvoiceItemResponse.Make 2 "Gadget X" 1 50 50 ]).
Proof. split; vm_compute; reflexivity. Qed.

(** ** The foreign keys hold in every store the service reaches *)

Lemma route_Raise_unchanged {A} (body : block A) st e st' :
  database_error (get_db body st) = (Raise e, st') → st' = st.
Proof.
  unfold get_db. destruct (body st) as [[a|[c d|e0]] st0]; cbn; congruence.
Qed.

Lemma elem_of_rows_executemany {A} (rs : list A) (t : table A) k r :
  rows (executemany rs t) !! k = Some r → rows t !! k = Some r ∨ r ∈ rs.
Proof.
  rewrite <-!elem_of_scan. destruct (scan_executemany rs t) as [-> _].
  intros [Hold|Hnew]%elem_of_app; [by left|right].
  by apply elem_of_zip_r in Hnew.
Qed.

Lemma persisted_elem n ps rs row :
  Forall2 (persisted n) ps rs → row ∈ rs → ∃ p, p ∈ ps ∧ persisted n p row.
Proof.
  intros Hrs Hrow. apply list_elem_of_lookup in Hrow as [k Hk].
  destruct (Forall2_lookup_r _ _ _ _ _ Hrs Hk) as (p & Hp & Hrow).
  exists p. split; [by eapply list_elem_of_lookup_2|done].
Qed.

Lemma created_store_foreign_keys invoice client ps tax total rs st :
  rows (clients st) !! InvoiceCreate.client_id invoice = Some client →
  Forall2 (persisted (next_rowid (invoices st))) ps rs →
  invoices_reference_clients st ∧ items_reference_invoices st →
  invoices_reference_clients (created_store invoice tax total rs st)
  ∧ items_reference_invoices (created_store invoice tax total rs st).
Proof.
  intros Hclient Hrs [Hic Hii]. unfold created_store. split.
  - intros id i. cbn [invoices clients insert_row snd rows].
    rewrite lookup_insert. case_decide.
    + intros [= <-]. cbn. eauto.
    + apply Hic.
  - intros id ii. cbn [invoices invoice_items insert_row snd rows].
    intros [Hold|Hnew]%elem_of_rows_executemany.
    + apply lookup_insert_is_Some'. right. by eapply Hii.
    + destruct (persisted_elem _ _ _ _ Hrs Hnew) as (p & _ & _ & _ & _ & -> & _).
      rewrite lookup_insert_eq. eauto.
Qed.

Lemma delete_invoice_Raise invoice_id st e st' :
  delete_invoice invoice_id st = (Raise e, st') → st' = st.
Proof. apply route_Raise_unchanged. Qed.

Lemma step_foreign_keys st st' :
  step st st' →
  invoices_reference_clients st ∧ items_reference_invoices st →
  invoices_reference_clients st' ∧ items_reference_invoices st'.
Proof.
  intros [invoice st0|invoice_id st0] Hfk.
  - destruct (create_invoice invoice st0) as [[r|e] st1] eqn:Hcreate; cbn [snd].
    + apply create_invoice_Ok in Hcreate
        as (client & ps & tax & total & rs & Hclient & _ & _ & _ & _ & Hrs & _ & ->).
      by eapply created_store_foreign_keys.
    + apply route_Raise_unchanged in Hcreate as ->. done.
  - destruct (delete_invoice invoice_id st0) as [[u|e] st1] eqn:Hdelete; cbn [snd].
    + apply delete_invoice_Ok in Hdelete as [_ ->]. destruct Hfk as [Hic Hii]. split.
      * intros id i'. cbn [invoices clients delete_row rows].
        intros [_ Hi']%lookup_delete_Some. by eapply Hic.
      * intros id ii. cbn [invoices invoice_items delete_row delete_where rows].
        intros [Hold Hother]%map_lookup_filter_Some. cbn in Hother.
        destruct (Hii _ _ Hold) as [i' Hi']. exists i'.
        by rewrite lookup_delete_ne.
    + apply delete_invoice_Raise in Hdelete as ->. done.
Qed.

Lemma reachable_foreign_keys st :
  reachable st → invoices_reference_clients st ∧ items_reference_invoices st.
Proof.
  unfold reachable. intros Hreach.
  eapply (rtc_ind_r
            (λ st, invoices_reference_clients st ∧ items_reference_invoices st));
    [|intros st1 st2 _ Hstep IH; exact (step_foreign_keys _ _ Hstep IH)|exact Hreach].
  split; intros id x; vm_compute; discriminate.
Qed.

(** ** More on table scans *)

Lemma scan_sorted {A} (t : table A) : StronglySorted Z.lt (scan t).*1.
Proof. rewrite scan_rowids. apply rowids_strict. Qed.

(** A list of rows with strictly ascending rowids that holds exactly the
    rows of a table is the scan of that table. *)
Lemma scan_unique {A} (t : table A) (l : list (Z * A)) :
  StronglySorted Z.lt l.*1 →
  (∀ k r, (k, r) ∈ l ↔ rows t !! k = Some r) →
  l = scan t.
Proof.
  intros Hsorted Hl.
  assert (l.*1 = rowids t) as Hkeys.
  { apply (StronglySorted_unique Z.le).
    - rewrite <-(list_fmap_id l.*1).
      apply (StronglySorted_fmap id Z.lt Z.le); [cbn; lia|done].
    - apply rowids_sorted.
    - apply NoDup_Permutation.
      + clear Hl. induction Hsorted as [|k ks _ IH Hall]; constructor; [|done].
        intros Hk. rewrite Forall_forall in Hall. specialize (Hall _ Hk). lia.
      + apply rowids_NoDup.
      + intros k. rewrite elem_of_rowids, list_elem_of_fmap. split.
        * intros ([k' r] & -> & Hin). apply Hl in Hin. eauto.
        * intros [r Hr]. exists (k, r). split; [done|]. by apply Hl. }
  unfold scan. rewrite <-Hkeys. clear Hkeys Hsorted.
  assert (Forall (λ kr, rows t !! kr.1 = Some kr.2) l) as Hall.
  { apply Forall_forall. intros [k r] Hin. by apply Hl. }
  clear Hl. induction Hall as [|[k r] l Hkr _ IH]; [done|].
  cbn in *. rewrite Hkr. cbn. by rewrite <-IH.
Qed.

Lemma scan_filter {A} (P : Z * A → Prop) `{!∀ x, Decision (P x)} (t : table A) s :
  scan (Table (filter P (rows t)) s) = filter P (scan t).
Proof.
  symmetry. apply scan_unique.
  - pose proof (scan_sorted t) as Hs.
    induction (scan t) as [|[k r] l IH]; [constructor|].
    cbn in Hs. apply StronglySorted_inv in Hs as [Hs Hall].
    rewrite filter_cons. case_decide; [|by apply IH].
    cbn. constructor; [by apply IH|].
    apply Forall_forall. intros k' ([k'' r'] & -> & [_ Hin]%list_elem_of_filter)%list_elem_of_fmap.
    rewrite Forall_forall in Hall. apply Hall. apply list_elem_of_fmap. by exists (k'', r').
  - intros k r. cbn [rows].
    by rewrite list_elem_of_filter, elem_of_scan, map_lookup_filter_Some, (comm and).
Qed.

Lemma scan_delete {A} (k : Z) (t : table A) :
  scan (delete_row k t) = filter (λ kr, kr.1 ≠ k) (scan t).
Proof.
  symmetry. apply scan_unique.
  - pose proof (scan_sorted t) as Hs.
    induction (scan t) as [|[k' r] l IH]; [constructor|].
    cbn in Hs. apply StronglySorted_inv in Hs as [Hs Hall].
    rewrite filter_cons. case_decide; [|by apply IH].
    cbn. constructor; [by apply IH|].
    apply Forall_forall. intros k1 ([k2 r'] & -> & [_ Hin]%list_elem_of_filter)%list_elem_of_fmap.
    rewrite Forall_forall in Hall. apply Hall. apply list_elem_of_fmap. by exists (k2, r').
  - intros k' r. unfold delete_row. cbn [rows].
    rewrite list_elem_of_filter, elem_of_scan, lookup_delete_Some. cbn.
    split; intros [??]; split; congruence.
Qed.

Lemma omap_filter {X Y} (f : X → option Y) (P : X → Prop) `{!∀ x, Decision (P x)}
    (l : list X) :
  (∀ x, x ∈ l → ¬ P x → f x = None) → omap f (filter P l) = omap f l.
Proof.
  induction l as [|x l IH]; intros Hf; [done|].
  rewrite filter_cons. case_decide as HP.
  - cbn. rewrite IH; [done|]. intros y Hy. apply Hf. by right.
  - cbn. rewrite (Hf x); [|by left|done]. apply IH.
    intros y Hy. apply Hf. by right.
Qed.

Lemma lookup_executemany_old {A} (rs : list A) (t : table A) k r :
  rows t !! k = Some r → rows (executemany rs t) !! k = Some r.
Proof.
  rewrite <-!elem_of_scan. destruct (scan_executemany rs t) as [-> _].
  intros Hold. apply elem_of_app. by left.
Qed.


(** ** How the routes fail *)








(** ** Other invoices are left alone *)

Lemma get_invoice_ext invoice_id st1 st2 :
  rows (invoices st1) !! invoice_id = rows (invoices st2) !! invoice_id →
  clients st1 = clients st2 →
  select_invoice_items invoice_id st1 = select_invoice_items invoice_id st2 →
  (get_invoice invoice_id st1).1 = (get_invoice invoice_id st2).1.
Proof.
  intros Hinvoice Hclients Hitems.
  rewrite !get_invoice_unfold, Hinvoice, Hclients, Hitems.
  destruct (rows (invoices st2) !! invoice_id) as [i|]; [|by case_decide].
  by destruct (rows (clients st2) !! Invoices.client_id i).
Qed.

Lemma select_invoice_items_created_other invoice ps tax total rs st other :
  Forall2 (persisted (next_rowid (invoices st))) ps rs →
  other ≠ next_rowid (invoices st) →
  select_invoice_items other (created_store invoice tax total rs st)
  = select_invoice_items other st.
Proof.
  intros Hrs Hother. unfold select_invoice_items, created_store.
  cbn [invoice_items products].
  destruct (scan_executemany rs (invoice_items st)) as [-> _].
  rewrite omap_app, (omap_none _ (zip _ _)), app_nil_r; [done|].
  apply Forall_forall. intros [k ii] Hin. cbn [snd].
  apply elem_of_zip_r in Hin.
  destruct (persisted_elem _ _ _ _ Hrs Hin) as (p & _ & _ & _ & _ & Hinv & _).
  by rewrite decide_False by congruence.
Qed.

(** A successful [create_invoice] leaves everything else as it was: the
    clients and products tables, every invoice row and item row that was
    there, and what [get_invoice] returns for any other id. *)
Theorem create_invoice_frame invoice st r st' :
  create_invoice invoice st = (Ok r, st') →
  clients st' = clients st
  ∧ products st' = products st
  ∧ rows (invoices st) !! InvoiceResponse.id r = None
  ∧ (∀ id i, rows (invoices st) !! id = Some i → rows (invoices st') !! id = Some i)
  ∧ (∀ id ii, rows (invoice_items st) !! id = Some ii
       → rows (invoice_items st') !! id = Some ii)
  ∧ (∀ other, other ≠ InvoiceResponse.id r
       → (get_invoice other st').1 = (get_invoice other st).1).
Proof.
  intros (client & ps & tax & total & rs & Hclient & Hps & Htax & Htotal & Hfree & Hrs
          & -> & ->)%create_invoice_Ok.
  unfold created_response. cbn [InvoiceResponse.id].
  split; [done|]. split; [done|]. split; [apply next_rowid_fresh|].
  split; [|split].
  - intros id i Hi. unfold created_store. cbn [invoices insert_row snd rows].
    rewrite lookup_insert_ne; [done|]. intros <-. by rewrite next_rowid_fresh in Hi.
  - intros id ii Hii. unfold created_store. cbn [invoice_items].
    by apply lookup_executemany_old.
  - intros other Hother. apply get_invoice_ext.
    + unfold created_store. cbn [invoices insert_row snd rows].
      by rewrite lookup_insert_ne.
    + done.
    + by eapply select_invoice_items_created_other.
Qed.

Lemma create_invoice_frame_example :
  clients Examples.st2 = clients Examples.st1
  ∧ products Examples.st2 = products Examples.st1
  ∧ rows (invoices Examples.st1) !! 2 = None
  ∧ (∀ id i, rows (invoices Examples.st1) !! id = Some i
       → rows (invoices Examples.st2) !! id = Some i)
  ∧ (∀ id ii, rows (invoice_items Examples.st1) !! id = Some ii
       → rows (invoice_items Examples.st2) !! id = Some ii)
  ∧ (∀ other, other ≠ 2
       → (get_invoice other Examples.st2).1 = (get_invoice other Examples.st1).1).
Proof.
  apply (create_invoice_frame Examples.inv_002 Examples.st1
           (InvoiceResponse.Make 2 "INV-002" Examples.issue Examples.due "Globex Inc"
              45 495 [InvoiceItemResponse.Make 0 "Service Hour" 3 150 450])).
  vm_compute. reflexivity.
Defined.

(** After a successful [create_invoice], [list_invoices] returns the
    summary of the new invoice first, followed by the list as it was. The
    summary has the id, number, dates and client name of the response and
    the total as SQLite stores it, which is the total of the response unless
    that is a zero. *)
Theorem list_invoices_after_create invoice st r st' :
  create_invoice invoice st = (Ok r, st') →
  ∃ l total,
    (list_invoices st).1 = Ok l
    ∧ sqlite_real (InvoiceResponse.total_amount r) = Some total
    ∧ (list_invoices st').1
      = Ok (InvoiceListResponse.Make (InvoiceResponse.id r) (InvoiceResponse.invoice_no r)
              (InvoiceResponse.issue_date r) (InvoiceResponse.due_date r)
              (InvoiceResponse.client_name r) total :: l)
    ∧ (is_zero (InvoiceResponse.total_amount r) = false
       → (list_invoices st').1 = Ok (summary r :: l)).
Proof.
  intros (client & ps & tax & total & rs & Hclient & Hps & Htax & Htotal & Hfree & Hrs
          & -> & ->)%create_invoice_Ok.
  exists (list_row <$> select_invoices st), total. split; [done|]. split; [done|].
  assert ((list_invoices (created_store invoice tax total rs st)).1
          = Ok (InvoiceListResponse.Make (next_rowid (invoices st))
                  (InvoiceCreate.invoice_no invoice) (InvoiceCreate.issue_date invoice)
                  (InvoiceCreate.due_date invoice) (Clients.name client) total
                  :: (list_row <$> select_invoices st))) as Hlist.
  { unfold list_invoices, get_db, read, database_error. cbn [fst]. f_equal.
    unfold select_invoices, created_store. cbn [invoices clients].
    rewrite scan_insert, reverse_app. cbn [reverse rev_append app omap list_omap fst snd].
    change (Invoices.client_id (created_row invoice tax total))
      with (InvoiceCreate.client_id invoice).
    rewrite Hclient. reflexivity. }
  split; [exact Hlist|].
  intros Hzero. rewrite Hlist. unfold summary, created_response in *.
  cbn [InvoiceResponse.id InvoiceResponse.invoice_no InvoiceResponse.issue_date
       InvoiceResponse.due_date InvoiceResponse.client_name InvoiceResponse.total_amount]
    in *.
  revert Htotal. unfold sqlite_real. rewrite Hzero.
  destruct (is_nan _); [done|]. by intros [= <-].
Qed.

Lemma list_invoices_after_create_example :
  ∃ l, (list_invoices Examples.st1).1 = Ok l
    ∧ (list_invoices Examples.st2).1
      = Ok (summary
              (InvoiceResponse.Make 2 "INV-002" Examples.issue Examples.due "Globex Inc"
                 45 495 [InvoiceItemResponse.Make 0 "Service Hour" 3 150 450]) :: l).
Proof.
  destruct (list_invoices_after_create Examples.inv_002 Examples.st1
              (InvoiceResponse.Make 2 "INV-002" Examples.issue Examples.due "Globex Inc"
                 45 495 [InvoiceItemResponse.Make 0 "Service Hour" 3 150 450])
              Examples.st2) as (l & total & Hl & _ & _ & Hsummary).
  { vm_compute. reflexivity. }
  exists l. split; [exact Hl|]. apply Hsummary. vm_compute. reflexivity.
Defined.

Lemma filter_all {X} (P : X → Prop) `{!∀ x, Decision (P x)} (l : list X) :
  Forall P l → filter P l = l.
Proof.
  induction 1 as [|x l Hx _ IH]; [done|].
  rewrite filter_cons, decide_True by done. by rewrite IH.
Qed.

Lemma filter_absorb {X} (P Q : X → Prop) `{!∀ x, Decision (P x)} `{!∀ x, Decision (Q x)}
    (l : list X) :
  (∀ x, P x → Q x) → filter P (filter Q l) = filter P l.
Proof.
  intros HPQ. induction l as [|x l IH]; [done|].
  rewrite (filter_cons Q). destruct (decide (Q x)) as [HQ|HQ].
  - rewrite !filter_cons. destruct (decide (P x)); by rewrite IH.
  - rewrite IH, filter_cons, decide_False; [done|]. intros HP. by apply HQ, HPQ.
Qed.

Lemma select_invoice_items_deleted invoice_id st other :
  other ≠ invoice_id →
  select_invoice_items other
    (Db (clients st) (products st) (delete_row invoice_id (invoices st))
       (delete_where (λ ii, InvoiceItems.invoice_id ii = invoice_id)
          (invoice_items st)))
  = select_invoice_items other st.
Proof.
  intros Hother. unfold select_invoice_items, delete_where.
  cbn [invoice_items products]. rewrite scan_filter. apply omap_filter.
  intros [k ii] _ Hii. cbn in *. apply dec_stable in Hii.
  rewrite decide_False; [done|]. congruence.
Qed.

(** [delete_invoice] leaves every other invoice as it was: the clients and
    products tables, the other invoice rows, the item rows of other
    invoices, and what [get_invoice] returns for any other id. *)
Theorem delete_invoice_frame invoice_id st other :
  other ≠ invoice_id →
  clients (delete_invoice invoice_id st).2 = clients st
  ∧ products (delete_invoice invoice_id st).2 = products st
  ∧ rows (invoices (delete_invoice invoice_id st).2) !! other
    = rows (invoices st) !! other
  ∧ (∀ id ii, rows (invoice_items st) !! id = Some ii
       → InvoiceItems.invoice_id ii = other
       → rows (invoice_items (delete_invoice invoice_id st).2) !! id = Some ii)
  ∧ (get_invoice other (delete_invoice invoice_id st).2).1
    = (get_invoice other st).1.
Proof.
  intros Hother.
  destruct (delete_invoice invoice_id st) as [[u|e] st'] eqn:Hdelete; cbn [snd].
  2:{ apply delete_invoice_Raise in Hdelete as ->. eauto 10. }
  apply delete_invoice_Ok in Hdelete as [_ ->].
  cbn [snd clients products invoices invoice_items].
  split; [done|]. split; [done|]. split; [|split].
  - unfold delete_row. cbn [rows]. by rewrite lookup_delete_ne.
  - intros id ii Hii Hinv. unfold delete_where. cbn [rows].
    apply map_lookup_filter_Some. split; [done|]. cbn. congruence.
  - apply get_invoice_ext.
    + cbn [invoices delete_row rows]. by rewrite lookup_delete_ne.
    + done.
    + by apply select_invoice_items_deleted.
Qed.

Lemma delete_invoice_frame_example :
  clients (delete_invoice 2 Examples.st2).2 = clients Examples.st2
  ∧ products (delete_invoice 2 Examples.st2).2 = products Examples.st2
  ∧ rows (invoices (delete_invoice 2 Examples.st2).2) !! 1
    = rows (invoices Examples.st2) !! 1
  ∧ (∀ id ii, rows (invoice_items Examples.st2) !! id = Some ii
       → InvoiceItems.invoice_id ii = 1
       → rows (invoice_items (delete_invoice 2 Examples.st2).2) !! id = Some ii)
  ∧ (get_invoice 1 (delete_invoice 2 Examples.st2).2).1
    = (get_invoice 1 Examples.st2).1.
Proof. apply (delete_invoice_frame 2 Examples.st2 1). lia. Defined.

Lemma list_row_filter (f : Z * Invoices.row → option (Z * Invoices.row * string))
    invoice_id (l : list (Z * Invoices.row)) :
  (∀ x y, f x = Some y → y.1.1 = x.1) →
  list_row <$> omap f (filter (λ kr, kr.1 ≠ invoice_id) l)
  = filter (λ s, InvoiceListResponse.id s ≠ invoice_id) (list_row <$> omap f l).
Proof.
  intros Hf. induction l as [|x l IH]; [done|].
  rewrite filter_cons. cbn [omap list_omap].
  destruct (f x) as [y|] eqn:Hy.
  - pose proof (Hf _ _ Hy) as Hid.
    rewrite fmap_cons, (filter_cons _ (list_row y)). cbn [list_row InvoiceListResponse.id].
    rewrite Hid. destruct (decide (x.1 ≠ invoice_id)).
    + cbn [omap list_omap]. rewrite Hy, fmap_cons. by rewrite IH.
    + apply IH.
  - destruct (decide (x.1 ≠ invoice_id)); [|apply IH].
    cbn [omap list_omap]. rewrite Hy. apply IH.
Qed.

(** After [delete_invoice], whatever its outcome, [list_invoices] returns
    the list as it was without the summary of that id. *)
Theorem list_invoices_after_delete invoice_id st :
  ∃ l, (list_invoices st).1 = Ok l
    ∧ (list_invoices (delete_invoice invoice_id st).2).1
      = Ok (filter (λ s, InvoiceListResponse.id s ≠ invoice_id) l).
Proof.
  exists (list_row <$> select_invoices st). split; [done|].
  unfold list_invoices, get_db, read, database_error. cbn [fst]. f_equal.
  destruct (delete_invoice invoice_id st) as [[u|e] st'] eqn:Hdelete; cbn [snd].
  - apply delete_invoice_Ok in Hdelete as [_ ->].
    unfold select_invoices. cbn [invoices clients].
    rewrite scan_delete, <-filter_reverse. apply list_row_filter.
    intros x y Hy. destruct (rows (clients st) !! Invoices.client_id x.2);
      by simplify_eq/=.
  - assert (rows (invoices st) !! invoice_id = None) as Hi.
    { destruct (rows (invoices st) !! invoice_id) as [i|] eqn:Hi; [|done].
      by rewrite (delete_invoice_present _ _ _ Hi) in Hdelete. }
    apply delete_invoice_Raise in Hdelete as ->.
    symmetry. apply filter_all, Forall_fmap, Forall_forall.
    intros row (c & Hrow & _)%elem_of_select_invoices. cbn. congruence.
Qed.


(** ** Creating, then deleting *)

(** Deleting the invoice that [create_invoice] has just created restores
    the rows of all four tables; only the AUTOINCREMENT counters keep the
    rowids that were handed out. The store is one whose item rows all
    reference an existing invoice. *)
Theorem create_then_delete invoice st r st1 :
  create_invoice invoice st = (Ok r, st1) →
  items_reference_invoices st →
  ∃ st2,
    delete_invoice (InvoiceResponse.id r) st1 = (Ok (), st2)
    ∧ clients st2 = clients st
    ∧ products st2 = products st
    ∧ rows (invoices st2) = rows (invoices st)
    ∧ rows (invoice_items st2) = rows (invoice_items st)
    ∧ sqlite_sequence (invoices st2) = InvoiceResponse.id r.
Proof.
  intros (client & ps & tax & total & rs & Hclient & Hps & Htax & Htotal & Hfree & Hrs
          & -> & ->)%create_invoice_Ok Hfk.
  unfold created_response. cbn [InvoiceResponse.id].
  eexists. split.
  { eapply delete_invoice_present. unfold created_store.
    cbn [invoices insert_row snd rows]. apply lookup_insert_eq. }
  unfold created_store.
  cbn [clients products invoices invoice_items insert_row delete_row delete_where
       snd rows sqlite_sequence].
  split; [done|]. split; [done|]. split; [|split; [|done]].
  - apply delete_insert_id, next_rowid_fresh.
  - apply map_eq. intros k. apply option_eq. intros ii.
    rewrite map_lookup_filter_Some. cbn. split.
    + intros [[Hold|Hnew]%elem_of_rows_executemany Hinv]; [done|].
      destruct (persisted_elem _ _ _ _ Hrs Hnew) as (p & _ & _ & _ & _ & Hinv' & _).
      by destruct Hinv.
    + intros Hold. split; [by apply lookup_executemany_old|].
      intros Hinv. destruct (Hfk _ _ Hold) as [i Hi].
      by rewrite Hinv, next_rowid_fresh in Hi.
Qed.

Lemma create_then_delete_example :
  ∃ st2,
    delete_invoice 1 Examples.st1 = (Ok (), st2)
    ∧ clients st2 = clients upgrade
    ∧ products st2 = products upgrade
    ∧ rows (invoices st2) = rows (invoices upgrade)
    ∧ rows (invoice_items st2) = rows (invoice_items upgrade)
    ∧ sqlite_sequence (invoices st2) = 1.
Proof.
  apply (create_then_delete Examples.inv_001 upgrade
           (InvoiceResponse.Make 1 "INV-001" Examples.issue Examples.due "Acme Corp" 7 77
              [ InvoiceItemResponse.Make 0 "Widget A" 2 10 20;
                InvoiceItemResponse.Make 0 "Gadget X" 1 50 50 ])
           Examples.st1).
  - vm_compute. reflexivity.
  - intros id ii. vm_compute. discriminate.
Defined.

Lemma step_invoice_counter st st' :
  step st st' → sqlite_sequence (invoices st) ≤ sqlite_sequence (invoices st').
Proof.
  intros [invoice st0|invoice_id st0].
  - destruct (create_invoice invoice st0) as [[r|e] st1] eqn:Hcreate; cbn [snd].
    + apply create_invoice_Ok in Hcreate
        as (client & ps & tax & total & rs & _ & _ & _ & _ & _ & _ & _ & ->).
      unfold created_store. cbn [invoices insert_row snd sqlite_sequence].
      unfold next_rowid. lia.
    + apply route_Raise_unchanged in Hcreate as ->. done.
  - destruct (delete_invoice invoice_id st0) as [[u|e] st1] eqn:Hdelete; cbn [snd].
    + by apply delete_invoice_Ok in Hdelete as [_ ->].
    + by apply delete_invoice_Raise in Hdelete as ->.
Qed.

(** The id of an invoice is never given out again: an invoice created after
    any number of later creations and deletions, of that very invoice too,
    gets a strictly larger id. *)
Theorem invoice_ids_never_reused invoice st r st1 st2 invoice' r' st3 :
  create_invoice invoice st = (Ok r, st1) →
  rtc step st1 st2 →
  create_invoice invoice' st2 = (Ok r', st3) →
  InvoiceResponse.id r < InvoiceResponse.id r'.
Proof.
  intros (client & ps & tax & total & rs & _ & _ & _ & _ & _ & _ & -> & ->)%create_invoice_Ok
         Hsteps
         (client' & ps' & tax' & total' & rs' & _ & _ & _ & _ & _ & _ & -> & _)%create_invoice_Ok.
  unfold created_response. cbn [InvoiceResponse.id].
  assert (next_rowid (invoices st) ≤ sqlite_sequence (invoices st2)) as Hle.
  { eapply (rtc_ind_r (λ st', next_rowid (invoices st) ≤ sqlite_sequence (invoices st')));
      [|intros st' st'' _ Hstep IH; apply step_invoice_counter in Hstep;
        exact (Z.le_trans _ _ _ IH Hstep)
       |exact Hsteps].
    unfold created_store. cbn [invoices insert_row snd sqlite_sequence]. lia. }
  unfold next_rowid at 2. lia.
Qed.

Lemma invoice_ids_never_reused_example :
  InvoiceResponse.id
    (InvoiceResponse.Make 1 "INV-001" Examples.issue Examples.due "Acme Corp" 7 77
       [ InvoiceItemResponse.Make 0 "Widget A" 2 10 20;
         InvoiceItemResponse.Make 0 "Gadget X" 1 50 50 ])
  < InvoiceResponse.id
      (InvoiceResponse.Make 2 "INV-001" Examples.issue Examples.due "Acme Corp" 7 77
         [ InvoiceItemResponse.Make 0 "Widget A" 2 10 20;
           InvoiceItemResponse.Make 0 "Gadget X" 1 50 50 ]).
Proof.
  apply (invoice_ids_never_reused Examples.inv_001 upgrade _ Examples.st1
           (delete_invoice 1 Examples.st1).2 Examples.inv_001 _
           (create_invoice Examples.inv_001 (delete_invoice 1 Examples.st1).2).2).
  - vm_compute. reflexivity.
  - apply rtc_once. apply step_delete.
  - vm_compute. reflexivity.
Defined.

(** ** An invoice whose client row is missing *)

(** The two reading routes join the invoice with its client, and the
    deleting route does not: for an invoice row whose client_id has no row in
    [clients], [get_invoice] raises the 404 "Invoice not found" and
    [list_invoices] shows no summary of it, while [delete_invoice] finds it
    and removes it. *)
Theorem invoice_without_client invoice_id st i :
  rows (invoices st) !! invoice_id = Some i →
  rows (clients st) !! Invoices.client_id i = None →
  get_invoice invoice_id st = (Raise (HTTPException 404 "Invoice not found"), st)
  ∧ (∃ l, list_invoices st = (Ok l, st)
       ∧ invoice_id ∉ InvoiceListResponse.id <$> l)
  ∧ (delete_invoice invoice_id st).1 = Ok ()
  ∧ rows (invoices (delete_invoice invoice_id st).2) !! invoice_id = None.
Proof.
  intros Hi Hclient. split; [|split; [|split]].
  - by rewrite get_invoice_unfold, Hi, Hclient.
  - eexists. split; [reflexivity|].
    rewrite <-list_fmap_compose.
    intros (row & Hid & (c & Hrow & Hc & _)%elem_of_select_invoices)%list_elem_of_fmap.
    cbn in Hid. rewrite <-Hid, Hi in Hrow. by simplify_eq.
  - by rewrite (delete_invoice_present _ _ _ Hi).
  - rewrite (delete_invoice_present _ _ _ Hi). cbn. apply lookup_delete_eq.
Qed.

Lemma invoice_without_client_example :
  get_invoice 1 Scenarios.st1_client_gone
  = (Raise (HTTPException 404 "Invoice not found"), Scenarios.st1_client_gone)
  ∧ (∃ l, list_invoices Scenarios.st1_client_gone = (Ok l, Scenarios.st1_client_gone)
       ∧ 1 ∉ InvoiceListResponse.id <$> l)
  ∧ (delete_invoice 1 Scenarios.st1_client_gone).1 = Ok ()
  ∧ rows (invoices (delete_invoice 1 Scenarios.st1_client_gone).2) !! 1 = None.
Proof.
  apply (invoice_without_client 1 Scenarios.st1_client_gone
           (Invoices.Row "INV-001" Examples.issue Examples.due 1 7 77)).
  - vm_compute. reflexivity.
  - vm_compute. reflexivity.
Defined.


(** ** What every step of the service keeps *)

Lemma step_cases st st' :
  step st st' →
  st' = st
  ∨ (∃ invoice client ps tax total rs,
       rows (clients st) !! InvoiceCreate.client_id invoice = Some client
       ∧ Forall2 (priced st) (InvoiceCreate.items invoice) ps
       ∧ sqlite_real (subtotal ps * tax_rate) = Some tax
       ∧ sqlite_real (subtotal ps + subtotal ps * tax_rate) = Some total
       ∧ invoice_no_taken (InvoiceCreate.invoice_no invoice) (invoices st) = false
       ∧ Forall2 (persisted (next_rowid (invoices st))) ps rs
       ∧ st' = created_store invoice tax total rs st)
  ∨ (∃ invoice_id i,
       rows (invoices st) !! invoice_id = Some i
       ∧ st' = Db (clients st) (products st) (delete_row invoice_id (invoices st))
                 (delete_where (λ ii, InvoiceItems.invoice_id ii = invoice_id)
                    (invoice_items st))).
Proof.
  intros [invoice st0|invoice_id st0].
  - destruct (create_invoice invoice st0) as [[r|e] st1] eqn:Hcreate; cbn [snd].
    + apply create_invoice_Ok in Hcreate
        as (client & ps & tax & total & rs & ? & ? & ? & ? & ? & ? & _ & ->).
      right. left. eauto 15.
    + apply route_Raise_unchanged in Hcreate as ->. by left.
  - destruct (delete_invoice invoice_id st0) as [[u|e] st1] eqn:Hdelete; cbn [snd].
    + apply delete_invoice_Ok in Hdelete as [[i Hi] ->]. right. right. eauto.
    + apply delete_invoice_Raise in Hdelete as ->. by left.
Qed.

(** No sequence of calls of [create_invoice] and [delete_invoice] writes to
    the clients or the products table. *)
Theorem routes_keep_catalog st st' :
  rtc step st st' → clients st' = clients st ∧ products st' = products st.
Proof.
  intros Hsteps.
  eapply (rtc_ind_r (λ st', clients st' = clients st ∧ products st' = products st));
    [done| |exact Hsteps].
  intros st1 st2 _ Hstep [<- <-].
  apply step_cases in Hstep
    as [->|[(invoice & client & ps & tax & total & rs & _ & _ & _ & _ & _ & _ & ->)
           |(invoice_id & i & _ & ->)]]; done.
Qed.

Lemma routes_keep_catalog_example :
  clients Scenarios.st3 = clients upgrade ∧ products Scenarios.st3 = products upgrade.
Proof.
  apply routes_keep_catalog.
  eapply rtc_l; [apply (step_create Examples.inv_001)|].
  eapply rtc_l; [apply (step_create Examples.inv_002)|].
  apply rtc_once, (step_delete 1).
Defined.

Lemma step_items_reference_products st st' :
  step st st' → items_reference_products st → items_reference_products st'.
Proof.
  intros [->|[(invoice & client & ps & tax & total & rs & _ & Hps & _ & _ & _ & Hrs & ->)
             |(invoice_id & i & _ & ->)]]%step_cases
         Hfk; [done| |].
  - intros id ii. unfold created_store. cbn [invoice_items products].
    intros [Hold|Hnew]%elem_of_rows_executemany; [by eapply Hfk|].
    destruct (persisted_elem _ _ _ _ Hrs Hnew) as (p & Hp & _ & _ & _ & _ & -> & _).
    destruct (priced_elem _ _ _ _ Hps Hp) as (product & y & Hproduct & _). eauto.
  - intros id ii. cbn [invoice_items products delete_where rows].
    intros [Hold _]%map_lookup_filter_Some. by eapply Hfk.
Qed.

(** The three foreign keys of the schema, once they hold, hold after any
    sequence of calls of [create_invoice] and [delete_invoice]: the routes
    never leave an invoice without its client, nor an item row without its
    invoice or its product. *)
Theorem foreign_keys_kept st st' :
  rtc step st st' →
  invoices_reference_clients st ∧ items_reference_invoices st
    ∧ items_reference_products st →
  invoices_reference_clients st' ∧ items_reference_invoices st'
    ∧ items_reference_products st'.
Proof.
  intros Hsteps Hfk.
  eapply (rtc_ind_r (λ st', invoices_reference_clients st' ∧ items_reference_invoices st'
                              ∧ items_reference_products st'));
    [exact Hfk| |exact Hsteps].
  intros st1 st2 _ Hstep (Hic & Hii & Hip).
  destruct (step_foreign_keys _ _ Hstep (conj Hic Hii)) as [Hic' Hii'].
  split; [done|]. split; [done|]. by eapply step_items_reference_products.
Qed.

Lemma foreign_keys_kept_example :
  invoices_reference_clients Scenarios.st3 ∧ items_reference_invoices Scenarios.st3
  ∧ items_reference_products Scenarios.st3.
Proof.
  apply (foreign_keys_kept upgrade).
  - eapply rtc_l; [apply (step_create Examples.inv_001)|].
    eapply rtc_l; [apply (step_create Examples.inv_002)|].
    apply rtc_once, (step_delete 1).
  - repeat split; intros id x; vm_compute; discriminate.
Defined.

Lemma step_invoice_numbers_unique st st' :
  step st st' → invoice_numbers_unique st → invoice_numbers_unique st'.
Proof.
  intros [->|[(invoice & client & ps & tax & total & rs & _ & _ & _ & _ & Hfree & _ & ->)
             |(invoice_id & i & _ & ->)]]%step_cases
         Huniq; [done| |].
  - assert (∀ id i, rows (invoices st) !! id = Some i
                    → Invoices.invoice_no i ≠ InvoiceCreate.invoice_no invoice) as Hnew.
    { intros id i Hi Hno.
      assert (invoice_no_taken (InvoiceCreate.invoice_no invoice) (invoices st) = true)
        as Htaken by (apply invoice_no_taken_true; eauto).
      congruence. }
    intros id1 id2 i1 i2. unfold created_store. cbn [invoices insert_row snd rows].
    rewrite !lookup_insert.
    destruct (decide (next_rowid (invoices st) = id1)) as [<-|?];
      destruct (decide (next_rowid (invoices st) = id2)) as [<-|?]; [done| | |by apply Huniq].
    + intros [= <-] Hi2 Hno. cbn in Hno. by destruct (Hnew _ _ Hi2).
    + intros Hi1 [= <-] Hno. cbn in Hno. by destruct (Hnew _ _ Hi1).
  - intros id1 id2 i1 i2. cbn [invoices delete_row rows].
    intros [_ Hi1]%lookup_delete_Some [_ Hi2]%lookup_delete_Some. by apply Huniq.
Qed.

(** Invoice numbers, once unique, stay unique after any sequence of calls of
    [create_invoice] and [delete_invoice]: no two persisted invoices ever
    share a number. *)
Theorem invoice_numbers_stay_unique st st' :
  rtc step st st' → invoice_numbers_unique st → invoice_numbers_unique st'.
Proof.
  intros Hsteps Huniq.
  eapply (rtc_ind_r (λ st', invoice_numbers_unique st')); [exact Huniq| |exact Hsteps].
  intros st1 st2 _ Hstep IH. by eapply step_invoice_numbers_unique.
Qed.

Lemma invoice_numbers_stay_unique_example : invoice_numbers_unique Scenarios.st3.
Proof.
  apply (invoice_numbers_stay_unique upgrade).
  - eapply rtc_l; [apply (step_create Examples.inv_001)|].
    eapply rtc_l; [apply (step_create Examples.inv_002)|].
    apply rtc_once, (step_delete 1).
  - intros id1 id2 i1 i2. vm_compute. discriminate.
Defined.

Lemma filter_none {X} (P : X → Prop) `{!∀ x, Decision (P x)} (l : list X) :
  Forall (λ x, ¬ P x) l → filter P l = [].
Proof.
  induction 1 as [|x l Hx _ IH]; [done|].
  by rewrite filter_cons, decide_False.
Qed.

Lemma stored_items_created_other invoice ps tax total rs st other :
  Forall2 (persisted (next_rowid (invoices st))) ps rs →
  other ≠ next_rowid (invoices st) →
  stored_items other (created_store invoice tax total rs st) = stored_items other st.
Proof.
  intros Hrs Hother. unfold stored_items, created_store. cbn [invoice_items].
  destruct (scan_executemany rs (invoice_items st)) as [-> _].
  rewrite filter_app, (filter_none _ (zip _ _)), app_nil_r; [done|].
  apply Forall_forall. intros [k ii] Hin. cbn [snd].
  apply elem_of_zip_r in Hin.
  destruct (persisted_elem _ _ _ _ Hrs Hin) as (p & _ & _ & _ & _ & Hinv & _).
  congruence.
Qed.

Lemma stored_items_created invoice ps tax total rs st :
  items_reference_invoices st →
  Forall2 (persisted (next_rowid (invoices st))) ps rs →
  stored_items (next_rowid (invoices st)) (created_store invoice tax total rs st)
  = zip (seqZ (next_rowid (invoice_items st)) (Z.of_nat (length rs))) rs.
Proof.
  intros Hfk Hrs. unfold stored_items, created_store. cbn [invoice_items].
  destruct (scan_executemany rs (invoice_items st)) as [-> _].
  rewrite filter_app, filter_none, filter_all; [done| |].
  - apply Forall_forall. intros [k ii] Hin. cbn [snd].
    apply elem_of_zip_r in Hin.
    by destruct (persisted_elem _ _ _ _ Hrs Hin) as (p & _ & _ & _ & _ & Hinv & _).
  - apply Forall_forall. intros [k ii] Hin%elem_of_scan. cbn [snd]. intros Hinv.
    destruct (Hfk _ _ Hin) as [i Hi]. by rewrite Hinv, next_rowid_fresh in Hi.
Qed.

Lemma stored_items_deleted invoice_id st other :
  other ≠ invoice_id →
  stored_items other
    (Db (clients st) (products st) (delete_row invoice_id (invoices st))
       (delete_where (λ ii, InvoiceItems.invoice_id ii = invoice_id)
          (invoice_items st)))
  = stored_items other st.
Proof.
  intros Hother. unfold stored_items, delete_where. cbn [invoice_items].
  rewrite scan_filter. apply filter_absorb. intros [k ii]. cbn. congruence.
Qed.

Lemma step_totals_consistent st st' :
  step st st' →
  items_reference_invoices st ∧ totals_consistent st ∧ line_totals_consistent st →
  totals_consistent st' ∧ line_totals_consistent st'.
Proof.
  intros [->|[(invoice & client & ps & tax & total & rs & _ & Hps & Htax & Htotal & _ & Hrs
               & ->)
             |(invoice_id & i & _ & ->)]]%step_cases
         (Hfk & Htotals & Hlines); [done| |].
  - split.
    + intros id i. unfold created_store at 1. cbn [invoices insert_row snd rows].
      rewrite lookup_insert. case_decide as Hid.
      * intros [= <-]. subst id. exists (ProcessedItem.line_total <$> ps).
        rewrite (stored_items_created _ _ _ _ _ _ Hfk Hrs).
        split; [|done].
        apply Forall2_fmap_l.
        apply (Forall2_zip_seqZ (persisted (next_rowid (invoices st)))); [done|].
        by intros p row k (_ & _ & Hl & _) _ _.
      * intros Hi. rewrite (stored_items_created_other _ _ _ _ _ _ _ Hrs) by done.
        by apply Htotals.
    + intros id ii. unfold created_store. cbn [invoice_items].
      intros [Hold|Hnew]%elem_of_rows_executemany; [by eapply Hlines|].
      destruct (persisted_elem _ _ _ _ Hrs Hnew) as (p & Hp & _ & Hu & Hl & _ & _ & Hqty).
      destruct (priced_elem _ _ _ _ Hps Hp) as (product & y & _ & Hy & _ & Hprice & Hline).
      exists (Products.price product), y.
      rewrite Hqty, <-Hline, <-Hprice. done.
  - split.
    + intros id i'. cbn [invoices delete_row rows].
      intros [Hid Hi']%lookup_delete_Some.
      rewrite stored_items_deleted by done. by apply Htotals.
    + intros id ii. cbn [invoice_items delete_where rows].
      intros [Hold _]%map_lookup_filter_Some. by eapply Hlines.
Qed.

(** The amounts stay consistent after any sequence of calls of
    [create_invoice] and [delete_invoice], up to the way SQLite stores a
    REAL (a negative zero as 0.0): every item row holds a price and that
    price × its quantity, and every invoice row holds s × 0.10 as tax_amount
    and s + s × 0.10 as total_amount, where s is the sum from 0.0 of line
    totals that its item rows hold in rowid order. The starting store is one
    where this holds and whose item rows all reference an existing invoice
    of an existing client. *)
Theorem totals_stay_consistent st st' :
  rtc step st st' →
  invoices_reference_clients st ∧ items_reference_invoices st
    ∧ totals_consistent st ∧ line_totals_consistent st →
  totals_consistent st' ∧ line_totals_consistent st'.
Proof.
  intros Hsteps Hst.
  cut (invoices_reference_clients st' ∧ items_reference_invoices st'
       ∧ totals_consistent st' ∧ line_totals_consistent st'); [tauto|].
  eapply (rtc_ind_r (λ st', invoices_reference_clients st' ∧ items_reference_invoices st'
                              ∧ totals_consistent st' ∧ line_totals_consistent st'));
    [exact Hst| |exact Hsteps].
  intros st1 st2 _ Hstep (Hic & Hii & Htotals & Hlines).
  destruct (step_foreign_keys _ _ Hstep (conj Hic Hii)) as [Hic' Hii'].
  destruct (step_totals_consistent _ _ Hstep (conj Hii (conj Htotals Hlines))).
  done.
Qed.

Lemma totals_stay_consistent_example :
  totals_consistent Scenarios.st3 ∧ line_totals_consistent Scenarios.st3.
Proof.
  apply (totals_stay_consistent upgrade).
  - eapply rtc_l; [apply (step_create Examples.inv_001)|].
    eapply rtc_l; [apply (step_create Examples.inv_002)|].
    apply rtc_once, (step_delete 1).
  - split; [|split; [|split]]; intros id x Hx; vm_compute in Hx; discriminate.
Defined.

(** The amounts of the store that holds INV-002 alone: 3 × 150.0 on the
    item row, 45.0 and 495.0 on the header. *)
Lemma totals_stay_consistent_st3 :
  scan (invoice_items Scenarios.st3) = [ (3, InvoiceItems.Row 2 5 3 150 450) ]
  ∧ scan (invoices Scenarios.st3)
    = [ (2, Invoices.Row "INV-002" Examples.issue Examples.due 2 45 495) ].
Proof. split; vm_compute; reflexivity. Qed.

(** ** Reading an invoice whose products all exist *)

(** In a store whose item rows all reference an existing product,
    [get_invoice] returns every stored item row of the invoice, in rowid
    order: item for item the rowid as id, the stored quantity, unit_price
    and line_total, and the current name of the product. *)
Theorem get_invoice_items_complete invoice_id st r :
  items_reference_products st →
  (get_invoice invoice_id st).1 = Ok r →
  Forall2 (λ item stored,
      InvoiceItemResponse.id item = stored.1
      ∧ InvoiceItemResponse.quantity item = InvoiceItems.quantity stored.2
      ∧ InvoiceItemResponse.unit_price item = InvoiceItems.unit_price stored.2
      ∧ InvoiceItemResponse.line_total item = InvoiceItems.line_total stored.2
      ∧ Some (InvoiceItemResponse.product_name item)
        = Products.name <$> rows (products st) !! InvoiceItems.product_id stored.2)
    (InvoiceResponse.items r) (stored_items invoice_id st).
Proof.
  intros Hfk. rewrite get_invoice_unfold.
  destruct (rows (invoices st) !! invoice_id) as [i|]; [|by case_decide].
  destruct (rows (clients st) !! Invoices.client_id i) as [c|]; [|done].
  cbn. intros [= <-]. cbn [InvoiceResponse.items].
  apply Forall2_fmap_l. unfold select_invoice_items, stored_items.
  assert (Forall (λ kr, is_Some (rows (products st) !! InvoiceItems.product_id kr.2))
            (scan (invoice_items st))) as Hall.
  { apply Forall_forall. intros [k ii] Hin%elem_of_scan. by eapply Hfk. }
  induction Hall as [|[k ii] l [p Hp] _ IH]; [constructor|].
  cbn [snd] in Hp. cbn [omap list_omap fst snd]. rewrite filter_cons. cbn [snd].
  destruct (decide (InvoiceItems.invoice_id ii = invoice_id)); [|done].
  rewrite Hp. cbn [fmap option_fmap option_map]. constructor; [|done].
  cbn. by rewrite Hp.
Qed.

Lemma get_invoice_items_complete_example :
  Forall2 (λ item stored,
      InvoiceItemResponse.id item = stored.1
      ∧ InvoiceItemResponse.quantity item = InvoiceItems.quantity stored.2
      ∧ InvoiceItemResponse.unit_price item = InvoiceItems.unit_price stored.2
      ∧ InvoiceItemResponse.line_total item = InvoiceItems.line_total stored.2
      ∧ Some (InvoiceItemResponse.product_name item)
        = Products.name <$> rows (products Examples.st2)
                              !! InvoiceItems.product_id stored.2)
    [InvoiceItemResponse.Make 3 "Service Hour" 3 150 450]
    (stored_items 2 Examples.st2).
Proof.
  apply (get_invoice_items_complete 2 Examples.st2
           (InvoiceResponse.Make 2 "INV-002" Examples.issue Examples.due "Globex Inc"
              45 495 [InvoiceItemResponse.Make 3 "Service Hour" 3 150 450])).
  - intros id ii Hii.
    assert ((id, ii) ∈ scan (invoice_items Examples.st2)) as Hin by (by apply elem_of_scan).
    vm_compute in Hin.
    repeat (apply elem_of_cons in Hin as [Hin|Hin];
            [injection Hin as -> ->; vm_compute; eauto|]).
    by apply elem_of_nil in Hin.
  - vm_compute. reflexivity.
Defined.

(** ** The migration *)

(** Running [upgrade] a second time changes nothing: it finds its name in
    [_migrations] and skips, whatever the database was before the first
    run. *)
Theorem upgrade_idempotent d :
  Migration002.upgrade (Migration002.upgrade d).1
  = ((Migration002.upgrade d).1,
     "Migration 002_create_invoicing_tables already applied. Skipping.").
Proof.
  assert (Migration002.name ∈ Migration002.migrations (Migration002.upgrade d).1)
    as Hrecorded.
  { unfold Migration002.upgrade. case_bool_decide as Hin; [done|].
    cbn. apply elem_of_app. right. by left. }
  generalize dependent (Migration002.upgrade d).1. intros d' Hrecorded.
  unfold Migration002.upgrade. by rewrite bool_decide_eq_true_2.
Qed.

(** [downgrade] undoes [upgrade] on a database that had none of the four
    tables and no record of the migration. *)
Theorem downgrade_upgrade ms :
  Migration002.name ∉ ms →
  (Migration002.downgrade
     (Migration002.upgrade (Migration002.Database ms None None None None)).1).1
  = Migration002.Database ms None None None None.
Proof.
  intros Hms. unfold Migration002.upgrade. cbn [Migration002.migrations].
  rewrite bool_decide_eq_false_2 by done.
  unfold Migration002.downgrade. cbn [fst Migration002.migrations]. f_equal.
  rewrite filter_app, filter_all.
  - rewrite filter_cons, decide_False; [|by intros []]. by rewrite app_nil_r.
  - apply Forall_forall. by intros n Hn ->.
Qed.

Lemma downgrade_upgrade_example :
  (Migration002.downgrade
     (Migration002.upgrade
        (Migration002.Database ["001_create_items_table"] None None None None)).1).1
  = Migration002.Database ["001_create_items_table"] None None None None.
Proof.
  apply downgrade_upgrade.
  intros [Hin|Hin%elem_of_nil]%elem_of_cons; [discriminate Hin|done].
Defined.

(** [downgrade] followed by [upgrade] resets the invoicing data, whatever
    the database held: the four tables are the freshly seeded ones, with the
    three clients at rowids 1-3, the five products at rowids 1-5 and no
    invoice, and the migration is recorded once. *)
Theorem upgrade_after_downgrade d :
  Migration002.upgrade (Migration002.downgrade d).1
  = (Migration002.of_db
       (filter (λ n, n ≠ Migration002.name) (Migration002.migrations d)
          ++ [Migration002.name])
       Schema.upgrade,
     "Migration 002_create_invoicing_tables applied successfully.")
  ∧ scan (Schema.clients Schema.upgrade) = zip [1; 2; 3] seed_clients
  ∧ scan (Schema.products Schema.upgrade) = zip [1; 2; 3; 4; 5] seed_products
  ∧ scan (Schema.invoices Schema.upgrade) = []
  ∧ scan (Schema.invoice_items Schema.upgrade) = [].
Proof.
  split; [|repeat split; vm_compute; reflexivity].
  unfold Migration002.upgrade, Migration002.downgrade.
  cbn [fst Migration002.migrations Migration002.clients Migration002.products
       Migration002.invoices Migration002.invoice_items].
  rewrite bool_decide_eq_false_2; [reflexivity|].
  intros [Hne _]%list_elem_of_filter. done.
Qed.




(** ** The smoke test *)






Lemma create_invoice_number_taken invoice st :
  is_Some (rows (clients st) !! InvoiceCreate.client_id invoice) →
  products_exist (InvoiceCreate.items invoice) st →
  quantities_convert (InvoiceCreate.items invoice) →
  invoice_no_taken (InvoiceCreate.invoice_no invoice) (invoices st) = true →
  create_invoice invoice st
  = (Raise (HTTPException 500 "Database error: name 'sqlite3' is not defined"), st).
Proof.
  intros [client Hclient] Hall Hconv Htaken.
  unfold create_invoice, get_db. rewrite create_invoice_block_unfold.
  rewrite (select_client_found _ _ _ Hclient).
  destruct (products_exist_priced _ _ Hall Hconv) as [ps Hps].
  rewrite (calculate_invoice_totals_priced _ _ _ Hps).
  destruct (insert_invoice_duplicate
              (Invoices.Row (InvoiceCreate.invoice_no invoice)
                 (InvoiceCreate.issue_date invoice) (InvoiceCreate.due_date invoice)
                 (InvoiceCreate.client_id invoice) (subtotal ps * tax_rate)
                 (subtotal ps + subtotal ps * tax_rate)) st) as [msg ->];
    [by eauto|done|done].
Qed.

(** On a store that already holds an invoice numbered INV-001, with client 1
    and products 1 and 3 present, [test_invoices] stops at its assertion on
    the status of the creation (line 46): the answer is the 500 of the
    unbound name [sqlite3], not 201. The store is unchanged, so every later
    run fails in the same way. *)
Theorem test_invoices_fails_on_taken_number docs st :
  VerifyInvoices.service_ready docs = true →
  is_Some (rows (clients st) !! 1) →
  is_Some (rows (products st) !! 1) →
  is_Some (rows (products st) !! 3) →
  (∃ id i, rows (invoices st) !! id = Some i ∧ Invoices.invoice_no i = "INV-001") →
  VerifyInvoices.test_invoices docs st = (VerifyInvoices.AssertionError 46, st).
Proof.
  intros Hready Hclient Hp1 Hp3 Htaken%invoice_no_taken_true.
  assert (products_exist (InvoiceCreate.items VerifyInvoices.payload) st) as Hall
    by (by repeat constructor).
  assert (quantities_convert (InvoiceCreate.items VerifyInvoices.payload)) as Hconv
    by (repeat constructor; eexists; vm_compute; reflexivity).
  unfold VerifyInvoices.test_invoices. rewrite Hready. cbn [negb].
  unfold VerifyInvoices.get_invoices.
  change (list_invoices st) with (Ok (list_row <$> select_invoices st), st).
  cbn [VerifyInvoices.respond VerifyInvoices.status_code VerifyInvoices.json].
  rewrite bool_decide_eq_true_2 by done. cbn [negb].
  unfold VerifyInvoices.post_invoices.
  rewrite (create_invoice_number_taken VerifyInvoices.payload st Hclient Hall Hconv Htaken).
  cbn [VerifyInvoices.respond VerifyInvoices.status_code VerifyInvoices.json].
  by rewrite bool_decide_eq_false_2.
Qed.

Lemma test_invoices_fails_on_taken_number_example :
  VerifyInvoices.test_invoices (λ _, VerifyInvoices.Answer 200) Examples.st1
  = (VerifyInvoices.AssertionError 46, Examples.st1).
Proof.
  apply test_invoices_fails_on_taken_number.
  - vm_compute. reflexivity.
  - vm_compute. eauto.
  - vm_compute. eauto.
  - vm_compute. eauto.
  - eexists 1, _. split; vm_compute; reflexivity.
Defined.
